(** * homematic_exporter: the reading-normalisation pipeline

    A shallow embedding of
    - [homematic_exporter/cache.py] (the two time-aware LRU decorators),
    - [homematic_exporter/collectors/xml_api.py] (the state-listing collector),
    - [homematic_exporter/collectors/legacy.py] (the RPC parameter-set collector),
    followed by the properties of the specification.

    Conventions.  Python floats are modelled by rationals ([Q]); a Python
    call that may raise returns a [result]; objects mutated in place (the
    LRU caches, the metric family dictionary) are threaded as explicit
    state.  A Python [dict] is an association list in insertion order, the
    order in which [dict.values()] yields. *)

From Stdlib Require Import List String Ascii Bool Arith ZArith QArith Qround Lia Lqa.
From Stdlib Require Import Permutation.
Import ListNotations.

Set Implicit Arguments.

(** ** Python exceptions and results *)

Inductive exn : Type :=
| AssertionError (msg : string)
| AttributeError
| IndexError
| KeyError
| TypeError
| ValueError
| ZeroDivisionError
| Fault.

Inductive result (A : Type) : Type :=
| Ok (a : A)
| Raise (e : exn).

Arguments Ok {A} a.
Arguments Raise {A} e.

Definition bind {A B : Type} (r : result A) (f : A -> result B) : result B :=
  match r with
  | Ok a => f a
  | Raise e => Raise e
  end.

Notation "x <- r ;; k" := (bind r (fun x => k))
  (at level 61, r at next level, right associativity).

(** ** [functools.lru_cache]

    The cache is kept as a list of entries, most recently used first.  A
    hit moves the entry to the front; a miss calls the user function and,
    when it returns, puts the new entry in front and drops the entry at the
    far end once more than [maxsize] entries are held.  A user function
    that raises leaves the cache as it was. *)

Section Lru.
Variables Key Val : Type.
Variable key_eqb : Key -> Key -> bool.

Fixpoint lru_find (k : Key) (c : list (Key * Val)) : option Val :=
  match c with
  | [] => None
  | (k', v) :: c' => if key_eqb k k' then Some v else lru_find k c'
  end.

Fixpoint lru_remove (k : Key) (c : list (Key * Val)) : list (Key * Val) :=
  match c with
  | [] => []
  | (k', v) :: c' => if key_eqb k k' then c' else (k', v) :: lru_remove k c'
  end.

Definition lru_touch (k : Key) (v : Val) (c : list (Key * Val)) :=
  (k, v) :: lru_remove k c.

Definition lru_insert (maxsize : nat) (k : Key) (v : Val) (c : list (Key * Val)) :=
  firstn maxsize ((k, v) :: c).

(** In-place mutation of the value object held under [k]. *)
Fixpoint lru_update (k : Key) (v : Val) (c : list (Key * Val)) : list (Key * Val) :=
  match c with
  | [] => []
  | (k', v') :: c' =>
      if key_eqb k k' then (k', v) :: c' else (k', v') :: lru_update k v c'
  end.
End Lru.

(** ** cache.py *)

Module Cache.
Section WithFunc.
(** [K]: the hashable argument tuple of the decorated function;
    [V]: what it returns. *)
Variables K V : Type.
Variable K_eqb : K -> K -> bool.

(** The decorated function.  It may answer differently each time it is
    called and it may raise: [func n args] is the outcome of its [n]-th
    invocation overall (counted from 0). *)
Variable func : nat -> K -> result V.

(** *** [ttl_lru_cache(seconds_to_live, maxsize)] *)

Record state : Type := mkState {
  cache : list ((Z * K) * V);   (* inner's lru_cache, keyed by (__ttl, args) *)
  calls : nat                   (* invocations of func so far *)
}.

Definition empty : state := mkState [] 0.

(** [time() // seconds_to_live] *)
Definition window (seconds_to_live : Z) (now : Q) : Z :=
  Qfloor (now / inject_Z seconds_to_live).

Definition wkey_eqb (a b : Z * K) : bool :=
  Z.eqb (fst a) (fst b) && K_eqb (snd a) (snd b).

(** [inner(__ttl, args)] under [lru_cache(maxsize)] *)
Definition inner (maxsize : nat) (ttl_key : Z) (args : K) (st : state)
  : result V * state :=
  let key := (ttl_key, args) in
  match lru_find wkey_eqb key (cache st) with
  | Some v => (Ok v, mkState (lru_touch wkey_eqb key v (cache st)) (calls st))
  | None =>
      match func (calls st) args with
      | Ok v => (Ok v, mkState (lru_insert maxsize key v (cache st)) (S (calls st)))
      | Raise e => (Raise e, mkState (cache st) (S (calls st)))
      end
  end.

(** The lambda returned by the decorator, called at clock reading [now];
    a [seconds_to_live] of zero makes the floor division raise. *)
Definition ttl_lru_cache (seconds_to_live : Z) (maxsize : nat)
           (now : Q) (args : K) (st : state) : result V * state :=
  if Z.eqb seconds_to_live 0 then (Raise ZeroDivisionError, st)
  else inner maxsize (window seconds_to_live now) args st.

(** *** [lru_cache_with_ttl(maxsize, typed, ttl)] *)

(** class Result: __slots__ = ("value", "death") *)
Record Result : Type := mkResult { value : V; death : Q }.

Record state' : Type := mkState' {
  cache' : list (K * Result);
  calls' : nat
}.

Definition empty' : state' := mkState' [] 0.

(** [a < b] on clock readings *)
Definition Qltb (a b : Q) : bool := negb (Qle_bool b a).

(** [cached_func(args)]: the [Result] object held for [args], made on a
    miss. *)
Definition cached_func (maxsize : nat) (ttl : Q) (now : Q) (args : K)
           (st : state') : result Result * state' :=
  match lru_find K_eqb args (cache' st) with
  | Some r => (Ok r, mkState' (lru_touch K_eqb args r (cache' st)) (calls' st))
  | None =>
      match func (calls' st) args with
      | Ok v =>
          let r := mkResult v (now + ttl) in
          (Ok r, mkState' (lru_insert maxsize args r (cache' st)) (S (calls' st)))
      | Raise e => (Raise e, mkState' (cache' st) (S (calls' st)))
      end
  end.

(** [wrapper(args)].  The clock is read as [now] throughout one call.
    The refresh assigns to the fields of the object the cache holds, so
    the entry changes in place. *)
Definition lru_cache_with_ttl (maxsize : nat) (ttl : Q)
           (now : Q) (args : K) (st : state') : result V * state' :=
  match cached_func maxsize ttl now args st with
  | (Raise e, st1) => (Raise e, st1)
  | (Ok r, st1) =>
      if Qltb (death r) now then
        match func (calls' st1) args with
        | Raise e => (Raise e, mkState' (cache' st1) (S (calls' st1)))
        | Ok v =>
            (Ok v,
             mkState' (lru_update K_eqb args (mkResult v (now + ttl)) (cache' st1))
                      (S (calls' st1)))
        end
      else (Ok (value r), st1)
  end.

(** Every entry of the cache was made in a window up to [w]: what a
    clock that does not run backwards leaves behind. *)
Definition windows_upto (w : Z) (st : state) : Prop :=
  Forall (fun e => (fst (fst e) <= w)%Z) (cache st).

End WithFunc.
End Cache.

(** ** Python built-ins used by the collectors *)

Module Py.

(** A value as the XML-RPC layer hands it over. *)
Inductive pyval : Type :=
| PNone
| PStr (s : string)
| PInt (z : Z)
| PFloat (q : Q)
| PBool (b : bool).

(** [value == '' or value is None] *)
Definition is_blank (v : pyval) : bool :=
  match v with
  | PNone => true
  | PStr EmptyString => true
  | _ => false
  end.

Definition digit_of (c : ascii) : option Z :=
  let n := nat_of_ascii c in
  if (48 <=? n)%nat && (n <=? 57)%nat then Some (Z.of_nat (n - 48)) else None.

Fixpoint digits_acc (s : string) (acc : Z) : option Z :=
  match s with
  | EmptyString => Some acc
  | String c s' =>
      match digit_of c with
      | Some d => digits_acc s' (10 * acc + d)%Z
      | None => None
      end
  end.

Definition digits (s : string) : option Z :=
  match s with
  | EmptyString => None
  | _ => digits_acc s 0%Z
  end.

Definition signed {A} (neg : A -> A) (body : string -> option A) (s : string)
  : option A :=
  match s with
  | String "-"%char s' => option_map neg (body s')
  | String "+"%char s' => body s'
  | _ => body s
  end.

(** [int(s)] for a string: a signed run of decimal digits.  Python also
    takes surrounding blanks and underscores between digits; the keys and
    values met here carry neither.  [None] stands for ValueError. *)
Definition int_of_str (s : string) : option Z := signed Z.opp digits s.

Fixpoint split_dot (s : string) : string * option string :=
  match s with
  | EmptyString => (EmptyString, None)
  | String "."%char s' => (EmptyString, Some s')
  | String c s' => let (a, b) := split_dot s' in (String c a, b)
  end.

Definition unsigned_float (s : string) : option Q :=
  match split_dot s with
  | (ip, None) => option_map inject_Z (digits ip)
  | (ip, Some fp) =>
      let scale := inject_Z (10 ^ Z.of_nat (String.length fp)) in
      match ip, fp with
      | EmptyString, EmptyString => None
      | EmptyString, _ => option_map (fun f => inject_Z f / scale) (digits fp)
      | _, EmptyString => option_map inject_Z (digits ip)
      | _, _ =>
          match digits ip, digits fp with
          | Some i, Some f => Some (inject_Z i + inject_Z f / scale)
          | _, _ => None
          end
      end
  end.

(** [float(s)] for a string: a signed decimal literal with an optional
    fraction.  Surrounding blanks, underscores between digits, exponents,
    [inf] and [nan], which Python also reads, are left out: every string
    read here Python reads to the same number, and not the other way
    round.  [None] stands for ValueError. *)
Definition float_of_str (s : string) : option Q := signed Qopp unsigned_float s.

(** [float(value)] *)
Definition float (v : pyval) : result Q :=
  match v with
  | PNone => Raise TypeError
  | PStr s => match float_of_str s with Some q => Ok q | None => Raise ValueError end
  | PInt z => Ok (inject_Z z)
  | PFloat q => Ok q
  | PBool b => Ok (if b then 1 else 0)
  end.

(** [int(value)]; a float is cut towards zero. *)
Definition int (v : pyval) : result Z :=
  match v with
  | PNone => Raise TypeError
  | PStr s => match int_of_str s with Some z => Ok z | None => Raise ValueError end
  | PInt z => Ok z
  | PFloat q => Ok (if Qle_bool 0 q then Qfloor q else Qceiling q)
  | PBool b => Ok (if b then 1%Z else 0%Z)
  end.

(** [seq[i]] on a list: negative indices count from the end. *)
Definition index {A} (l : list A) (i : Z) : result A :=
  let n := Z.of_nat (List.length l) in
  let j := if (i <? 0)%Z then (n + i)%Z else i in
  if (0 <=? j)%Z && (j <? n)%Z then
    match nth_error l (Z.to_nat j) with
    | Some a => Ok a
    | None => Raise IndexError
    end
  else Raise IndexError.

Definition lower_ascii (c : ascii) : ascii :=
  let n := nat_of_ascii c in
  if (65 <=? n)%nat && (n <=? 90)%nat then ascii_of_nat (n + 32) else c.

(** [s.lower()] on ASCII text *)
Fixpoint lower (s : string) : string :=
  match s with
  | EmptyString => EmptyString
  | String c s' => String (lower_ascii c) (lower s')
  end.

(** [x in seq] for strings *)
Definition str_in (x : string) (l : list string) : bool :=
  existsb (String.eqb x) l.

(** *** [dict] with string keys, in insertion order *)

Definition dict (A : Type) : Type := list (string * A).

Fixpoint dict_get {A} (k : string) (d : dict A) : option A :=
  match d with
  | [] => None
  | (k', a) :: d' => if String.eqb k k' then Some a else dict_get k d'
  end.

Definition dict_mem {A} (k : string) (d : dict A) : bool :=
  match dict_get k d with Some _ => true | None => false end.

(** [d[k] = a]: an existing key keeps its place. *)
Fixpoint dict_set {A} (k : string) (a : A) (d : dict A) : dict A :=
  match d with
  | [] => [(k, a)]
  | (k', a') :: d' =>
      if String.eqb k k' then (k', a) :: d' else (k', a') :: dict_set k a d'
  end.

(** A method call that mutates the object stored under [k]. *)
Fixpoint dict_alter {A} (f : A -> A) (k : string) (d : dict A) : dict A :=
  match d with
  | [] => []
  | (k', a) :: d' =>
      if String.eqb k k' then (k', f a) :: d' else (k', a) :: dict_alter f k d'
  end.

(** [d.values()] *)
Definition dict_values {A} (d : dict A) : list A := map snd d.

(** A loop whose body may raise. *)
Fixpoint for_each {A S} (body : A -> S -> result S) (l : list A) (s : S)
  : result S :=
  match l with
  | [] => Ok s
  | a :: l' => s' <- body a s ;; for_each body l' s'
  end.

End Py.

(** ** prometheus_client metric families

    [add_metric] appends one sample to the family's [samples] list; the
    sample's labels pair the family's label names with the given values. *)

Module Prom.

Record Sample : Type := mkSample {
  labels : list (string * string);
  sample_value : Q
}.

Inductive family_type : Type := gauge | counter.

Record MetricFamily : Type := mkFamily {
  name : string;
  documentation : string;
  typ : family_type;
  labelnames : list string;
  unit : string;
  samples : list Sample
}.

(** [s.endswith(suffix)] *)
Definition endswith (s suffix : string) : bool :=
  let n := String.length s in
  let m := String.length suffix in
  (m <=? n)%nat && String.eqb (substring (n - m) m s) suffix.

(** The name a family is given: the unit is appended to it, after an
    underscore, unless it ends with it already. *)
Definition metric_name (name unit : string) : string :=
  match unit with
  | EmptyString => name
  | _ => if endswith name ("_" ++ unit) then name
         else (name ++ "_" ++ unit)%string
  end.

(** The name of a counter family, without the total its samples are
    named with. *)
Definition counter_name (name : string) : string :=
  if endswith name "_total"
  then substring 0 (String.length name - 6) name
  else name.

Definition GaugeMetricFamily (name documentation : string)
           (labels : list string) (unit : string) : MetricFamily :=
  mkFamily (metric_name name unit) documentation gauge labels unit [].

Definition CounterMetricFamily (name documentation : string)
           (labels : list string) (unit : string) : MetricFamily :=
  mkFamily (metric_name (counter_name name) unit) documentation counter
           labels unit [].

Definition add_metric (labels : list string) (value : Q) (f : MetricFamily)
  : MetricFamily :=
  mkFamily (name f) (documentation f) (typ f) (labelnames f) (unit f)
           (samples f ++ [mkSample (combine (labelnames f) labels) value]).

(** [metrics[key].add_metric(labels, value)] *)
Definition add_to (key : string) (labels : list string) (value : Q)
           (metrics : Py.dict MetricFamily) : Py.dict MetricFamily :=
  Py.dict_alter (add_metric labels value) key metrics.

(** All observations of a batch, each with the key of its family. *)
Definition observations (metrics : Py.dict MetricFamily)
  : list (string * Sample) :=
  flat_map (fun kf => map (pair (fst kf)) (samples (snd kf))) metrics.

(** The observations held under one key. *)
Definition samples_of (key : string) (metrics : Py.dict MetricFamily)
  : list Sample :=
  match Py.dict_get key metrics with
  | Some f => samples f
  | None => []
  end.

End Prom.

(** ** collectors/xml_api.py *)

Module XmlApi.
Import Py Prom.
Local Open Scope string_scope.

(** The members of pyccu3's [DataPointType] and [DataPointUnit] that the
    collector names; every other member is an [Other]. *)
Module DataPointType.
Inductive t : Type :=
| RSSI_DEVICE | RSSI_PEER | ACTUAL_TEMPERATURE | TEMPERATURE | HUMIDITY
| LEVEL | OPERATING_VOLTAGE | ENERGY_COUNTER | CURRENT | VOLTAGE | POWER
| Other (member : string).
End DataPointType.

Module DataPointUnit.
Inductive t : Type :=
| DECIMAL_PERCENT | PERCENT | UNKNOWN | VOLTAGE | WATT_HOUR | WATT
| MILLI_AMPERE
| Other (member : string).
End DataPointUnit.

Inductive BOOLEAN : Type := TRUE | FALSE.

(** [Union[float, BOOLEAN, IPv6Address, IPv4Address, PartyDate]] *)
Inductive dpvalue : Type :=
| Number (q : Q)
| Boolean (b : BOOLEAN)
| Address (text : string)
| Date (text : string).

Definition floatify (value : dpvalue) : Q :=
  match value with
  | Number q => q
  | Boolean TRUE => 1
  | _ => 0
  end.

Record Datapoint : Type := mkDatapoint {
  dp_type : DataPointType.t;
  valueunit : DataPointUnit.t;
  dp_value : dpvalue
}.

(** A channel of the state list, and a channel as a directory entry
    refers to it. *)
Record Channel : Type := mkChannel {
  ise_id : Z;
  channel_name : string;
  datapoint : list Datapoint
}.

Record StateDevice : Type := mkStateDevice {
  state_device_name : string;
  state_channel : list Channel
}.

Record Room : Type := mkRoom {
  room_name : string;
  room_channel : list Z          (* the ise_id of each channel listed *)
}.

Record Function : Type := mkFunction {
  function_name : string;
  function_channel : list Z
}.

Record Device : Type := mkDevice {
  device_name : string;
  address : string;
  device_type : string;
  device_channel : list Z
}.

(** [auth] is a tuple; its length is whatever the caller passed. *)
Record PyCCU3 : Type := mkPyCCU3 {
  client_host : string;
  session_id : option string;
  verify : bool
}.

Record HomeMaticCollector : Type := mkCollector {
  host : string;
  client : PyCCU3
}.

Definition init (host : string) (auth : list (option string)) (verify : bool)
  : result HomeMaticCollector :=
  if (2 <? List.length auth)%nat then
    match nth_error auth 1 with
    | Some sid => Ok (mkCollector host (mkPyCCU3 host sid verify))
    | None => Raise IndexError
    end
  else Raise (AssertionError "Please provide a valid session_id").

(** [[entry for entry in directory for channel in entry.channel
      if channel.ise_id == ise_id]] *)
Definition hits {E : Type} (channels : E -> list Z) (id : Z) (entry : E)
  : list E :=
  map (fun _ => entry) (filter (Z.eqb id) (channels entry)).

Definition found {E : Type} (channels : E -> list Z) (directory : list E)
           (id : Z) : list E :=
  flat_map (hits channels id) directory.

(** [if found and len(found) == 1] *)
Definition the_one {E : Type} (l : list E) : option E :=
  match l with
  | [e] => Some e
  | _ => None
  end.

Definition get_room_of_device (rooms : list Room) (id : Z) : string :=
  match the_one (found room_channel rooms id) with
  | Some room => room_name room
  | None => "unknown"
  end.

Definition get_device_address_of_device (devices : list Device) (id : Z)
  : string * string :=
  match the_one (found device_channel devices id) with
  | Some device => (address device, device_type device)
  | None => ("unknown", "unknown")
  end.

Definition get_function_of_device (functions : list Function) (id : Z)
  : string :=
  match the_one (found function_channel functions id) with
  | Some func => function_name func
  | None => "unknown"
  end.

Definition namespace : string := "homematic".

Definition base_labelnames : list string :=
  ["ccu"; "device_name"; "device_address"; "device_type"; "channel_name";
   "room"; "function"].

(** The [metrics] dictionary every pass starts from. *)
Definition new_metrics : dict MetricFamily :=
  [ ("rssi", GaugeMetricFamily (namespace ++ "_rssi")
       "The RSSI value from either ccu to device or device to ccu"
       (base_labelnames ++ ["direction"])%list "dbm");
    ("temperature", GaugeMetricFamily (namespace ++ "_temperature")
       "The Temperature of a Sensor in Celsius" base_labelnames "celsius");
    ("humidity", GaugeMetricFamily (namespace ++ "_humidity")
       "The measure humidity of a Sensor from 0-1" base_labelnames "ratio");
    ("battery", GaugeMetricFamily (namespace ++ "_battery")
       "The battery voltage of the device 0 means no battery installed"
       base_labelnames "volts");
    ("level", GaugeMetricFamily (namespace ++ "_level")
       "The level of blinds or heating circuits from 0-1 [0(CLOSED)/1(OPEN)]"
       base_labelnames "ratio");
    ("energy", CounterMetricFamily (namespace ++ "_energy")
       "The energy consumed by the device." base_labelnames "joules");
    ("current", GaugeMetricFamily (namespace ++ "_circuit")
       "The current currently flowing through the circuit"
       base_labelnames "amperes");
    ("voltage", GaugeMetricFamily (namespace ++ "_circuit")
       "The voltage currently between the potentials of the circuit"
       base_labelnames "volts");
    ("power", GaugeMetricFamily (namespace ++ "_circuit")
       "The radiant flux in the circuit" base_labelnames "joules_per_second")
  ].

(** The body of [for datapoint in channel.datapoint]. *)
Definition process_datapoint (base_labels : list string) (dp : Datapoint)
           (metrics : dict MetricFamily) : dict MetricFamily :=
  match dp_type dp with
  | DataPointType.RSSI_DEVICE =>
      add_to "rssi" (base_labels ++ ["ccu->device"])%list
             (floatify (dp_value dp)) metrics
  | DataPointType.RSSI_PEER =>
      add_to "rssi" (base_labels ++ ["device->ccu"])%list
             (floatify (dp_value dp)) metrics
  | DataPointType.ACTUAL_TEMPERATURE | DataPointType.TEMPERATURE =>
      add_to "temperature" base_labels (floatify (dp_value dp)) metrics
  | DataPointType.HUMIDITY =>
      let value :=
        match valueunit dp with
        | DataPointUnit.DECIMAL_PERCENT => Number (floatify (dp_value dp) / 100)
        | _ => dp_value dp
        end in
      add_to "humidity" base_labels (floatify value) metrics
  | DataPointType.LEVEL =>
      match valueunit dp with
      | DataPointUnit.PERCENT =>
          add_to "level" base_labels (floatify (dp_value dp)) metrics
      | _ => metrics
      end
  | DataPointType.OPERATING_VOLTAGE =>
      match valueunit dp with
      | DataPointUnit.UNKNOWN =>
          add_to "battery" base_labels (floatify (dp_value dp)) metrics
      | DataPointUnit.VOLTAGE => metrics
      | _ => metrics
      end
  | DataPointType.ENERGY_COUNTER =>
      let value :=
        match valueunit dp with
        | DataPointUnit.WATT_HOUR => Number (floatify (dp_value dp) * 3600)
        | DataPointUnit.WATT => Number (floatify (dp_value dp) * 1)
        | _ => dp_value dp
        end in
      add_to "energy" base_labels (floatify value) metrics
  | DataPointType.CURRENT =>
      let value :=
        match valueunit dp with
        | DataPointUnit.MILLI_AMPERE => Number (floatify (dp_value dp) / 1000)
        | _ => dp_value dp
        end in
      add_to "current" base_labels (floatify value) metrics
  | DataPointType.VOLTAGE =>
      match valueunit dp with
      | DataPointUnit.VOLTAGE =>
          add_to "voltage" base_labels (floatify (dp_value dp)) metrics
      | _ => metrics
      end
  | DataPointType.POWER =>
      match valueunit dp with
      | DataPointUnit.WATT =>
          add_to "power" base_labels (floatify (dp_value dp)) metrics
      | _ => metrics
      end
  | DataPointType.Other _ => metrics
  end.

(** The directory collections as the pass finds them in their caches;
    the calls to the controller that fill the caches have returned. *)
Record Directories : Type := mkDirectories {
  rooms : list Room;
  functions : list Function;
  devices : list Device
}.

(** The body of [for channel in device.channel]. *)
Definition process_channel (self : HomeMaticCollector) (dirs : Directories)
           (device : StateDevice) (channel : Channel)
           (metrics : dict MetricFamily) : dict MetricFamily :=
  let (device_address, device_type) :=
    get_device_address_of_device (devices dirs) (ise_id channel) in
  let room := get_room_of_device (rooms dirs) (ise_id channel) in
  let func := get_function_of_device (functions dirs) (ise_id channel) in
  let base_labels :=
    [host self; state_device_name device; device_address; device_type;
     channel_name channel; room; func] in
  fold_left (fun m dp => process_datapoint base_labels dp m)
            (datapoint channel) metrics.

Definition process_device (self : HomeMaticCollector) (dirs : Directories)
           (device : StateDevice) (metrics : dict MetricFamily)
  : dict MetricFamily :=
  fold_left (fun m ch => process_channel self dirs device ch m)
            (state_channel device) metrics.

(** The filled [metrics] dictionary of one pass over the state list. *)
Definition run_pass (self : HomeMaticCollector) (dirs : Directories)
           (states : list StateDevice) : dict MetricFamily :=
  fold_left (fun m d => process_device self dirs d m) states new_metrics.

(** [collect]: the families, in the order of the dictionary. *)
Definition collect (self : HomeMaticCollector) (dirs : Directories)
           (states : list StateDevice) : list MetricFamily :=
  dict_values (run_pass self dirs states).

(** The readings of a state list in the order the pass meets them, each
    with the base labels of its channel. *)
Definition base_labels_of (self : HomeMaticCollector) (dirs : Directories)
           (device : StateDevice) (channel : Channel) : list string :=
  [host self; state_device_name device;
   fst (get_device_address_of_device (devices dirs) (ise_id channel));
   snd (get_device_address_of_device (devices dirs) (ise_id channel));
   channel_name channel;
   get_room_of_device (rooms dirs) (ise_id channel);
   get_function_of_device (functions dirs) (ise_id channel)].

Definition readings (self : HomeMaticCollector) (dirs : Directories)
           (states : list StateDevice) : list (list string * Datapoint) :=
  flat_map (fun device =>
    flat_map (fun channel =>
      map (pair (base_labels_of self dirs device channel)) (datapoint channel))
      (state_channel device))
    states.

(** What one reading adds to an empty batch. *)
Definition classify (base_labels : list string) (dp : Datapoint)
  : list (string * Sample) :=
  observations (process_datapoint base_labels dp new_metrics).

End XmlApi.

(** ** collectors/legacy.py *)

Module Legacy.
Import Py Prom.
Local Open Scope string_scope.

(** pyccu3's [HomeMaticRPCDevice], as far as the collector reads it. *)
Record HomeMaticRPCDevice : Type := mkRPCDevice {
  address : string;
  type : string;
  parent : string;
  parent_type : string;
  children : list string;
  paramsets : list string;
  default_device : bool
}.

(** One entry of a parameter-set description. *)
Record ParamDesc : Type := mkParamDesc {
  TYPE : option string;
  VALUE_LIST : option (list string)
}.

(** One entry of [client.device_names()]; [mapping.get("name", "unknown")]
    reads the second field. *)
Record NameMapping : Type := mkNameMapping {
  mapping_address : string;
  mapping_name : option string
}.

(** What the controller answers during one pass. *)
Record PyCCU3Legacy : Type := mkClient {
  client_devices : list HomeMaticRPCDevice;
  paramset : string -> result (dict pyval);               (* (address, "VALUES") *)
  paramset_description : string -> result (dict ParamDesc);
  device_names : list NameMapping
}.

(** The parsed configuration file. *)
Record Config : Type := mkConfig {
  device_mapping : option (dict string);
  config_supported_device_types : option (list string);
  config_channels_with_errors_allowed : option (dict (list Z))
}.

Record HomeMaticLegacyCollector : Type := mkCollector {
  host : string;
  client : PyCCU3Legacy;
  default_mapped_names : bool;
  mapped_names : dict string;
  supported_device_types : list string;
  channels_with_errors_allowed : dict (list Z)
}.

Definition get_or {A} (o : option A) (default : A) : A :=
  match o with Some a => a | None => default end.

Section Constants.
(** pyccu3.constants *)
Variable SUPPORTED_DEVICE_TYPES : list string.
Variable CHANNELS_WITH_ERRORS_ALLOWED : dict (list Z).

(** [__init__]; [config] is the content of the file named by
    [config_filename], when one is given. *)
Definition init (host : string) (client : PyCCU3Legacy)
           (config : option Config) : HomeMaticLegacyCollector :=
  match config with
  | None =>
      mkCollector host client true []
                  SUPPORTED_DEVICE_TYPES CHANNELS_WITH_ERRORS_ALLOWED
  | Some c =>
      mkCollector host client false
        (get_or (device_mapping c) [])
        (get_or (config_supported_device_types c) SUPPORTED_DEVICE_TYPES)
        (get_or (config_channels_with_errors_allowed c)
                CHANNELS_WITH_ERRORS_ALLOWED)
  end.
End Constants.

(** [get_mappings]: a dictionary when the default names are in use,
    [None] (the function falls off its end) otherwise. *)
Definition get_mappings (self : HomeMaticLegacyCollector)
  : option (dict string) :=
  if default_mapped_names self then
    Some (fold_left
            (fun d m => dict_set (mapping_address m)
                                 (get_or (mapping_name m) "unknown") d)
            (device_names (client self)) [])
  else None.

(** [d[k]] *)
Definition getitem {A} (d : dict A) (k : string) : result A :=
  match dict_get k d with
  | Some a => Ok a
  | None => Raise KeyError
  end.

Definition resolve_mapped_name (self : HomeMaticLegacyCollector)
           (device : HomeMaticRPCDevice) : result string :=
  match get_mappings self with
  | None => Raise AttributeError            (* None has no keys() *)
  | Some mapped_names =>
      if dict_mem (address device) mapped_names
         && negb (default_device device)
      then getitem mapped_names (address device)
      else if dict_mem (parent device) mapped_names
      then getitem mapped_names (parent device)
      else Ok (address device)
  end.

Definition namespace : string := "homematic".

Definition single_labelnames : list string :=
  ["ccu"; "device"; "device_type"; "parent_device_type"; "mapped_name"].

(** [if not gaugename in self.metrics: self.metrics[gaugename] = ...] *)
Definition ensure_family (gaugename key : string) (labels : list string)
           (metrics : dict MetricFamily) : dict MetricFamily :=
  if dict_mem gaugename metrics then metrics
  else dict_set gaugename
         (GaugeMetricFamily (namespace ++ "_" ++ gaugename)
                            ("Metrics for " ++ key) labels EmptyString)
         metrics.

Definition process_single_value (self : HomeMaticLegacyCollector)
           (device : HomeMaticRPCDevice) (paramType key : string)
           (value : pyval) (metrics : dict MetricFamily)
  : result (dict MetricFamily) :=
  if is_blank value then Ok metrics
  else
    let gaugename := lower key in
    let metrics := ensure_family gaugename key single_labelnames metrics in
    mapped_name <- resolve_mapped_name self device ;;
    v <- float value ;;
    Ok (add_to gaugename
          [host self; address device; type device; parent_type device;
           mapped_name] v metrics).

(** [istates[int(value)]]; a description without VALUE_LIST hands over
    [None], which cannot be indexed. *)
Definition current_state (istates : option (list string)) (value : pyval)
  : result string :=
  i <- int value ;;
  match istates with
  | None => Raise TypeError
  | Some l => index l i
  end.

Definition process_enum (self : HomeMaticLegacyCollector)
           (device : HomeMaticRPCDevice) (key : string) (value : pyval)
           (istates : option (list string)) (metrics : dict MetricFamily)
  : result (dict MetricFamily) :=
  if is_blank value then Ok metrics
  else
    let gaugename := lower key ++ "_set" in
    let metrics :=
      ensure_family gaugename key (single_labelnames ++ ["state"])%list metrics in
    mapped_name_v <- resolve_mapped_name self device ;;
    state <- current_state istates value ;;
    Ok (fold_left
          (fun m istate =>
             add_to gaugename
               [host self; address device; type device; parent_type device;
                mapped_name_v; istate]
               (inject_Z (if String.eqb state istate then 1 else 0)) m)
          (get_or istates []) metrics).

(** [paramset.get(key)] *)
Definition param_value (paramset : dict pyval) (key : string) : pyval :=
  get_or (dict_get key paramset) PNone.

(** The body of [for key in paramsetDescription]. *)
Definition process_param (self : HomeMaticLegacyCollector)
           (device : HomeMaticRPCDevice) (paramset : dict pyval)
           (entry : string * ParamDesc) (metrics : dict MetricFamily)
  : result (dict MetricFamily) :=
  let (key, paramDesc) := entry in
  match TYPE paramDesc with
  | Some paramType =>
      if str_in paramType ["FLOAT"; "INTEGER"; "BOOL"] then
        process_single_value self device paramType key
                             (param_value paramset key) metrics
      else if String.eqb paramType "ENUM" then
        process_enum self device key (param_value paramset key)
                     (VALUE_LIST paramDesc) metrics
      else Ok metrics
  | None => Ok metrics
  end.

(** [device.address[device.address.find(":") + 1 :]] *)
Fixpoint after_colon (s : string) : option string :=
  match s with
  | EmptyString => None
  | String c s' => if Ascii.eqb c ":" then Some s' else after_colon s'
  end.

Definition channel_suffix (address : string) : string :=
  get_or (after_colon address) address.

(** Whether a failing read of this channel's values is put up with. *)
Definition allow_failed_channel (self : HomeMaticLegacyCollector)
           (device : HomeMaticRPCDevice) : result bool :=
  match dict_get (parent_type device) (channels_with_errors_allowed self) with
  | Some invalidChannels =>
      channel <- int (PStr (channel_suffix (address device))) ;;
      Ok (existsb (Z.eqb channel) invalidChannels)
  | None => Ok false
  end.

(** [try: paramset = client.paramset(...) except xmlrpc.client.Fault: ...] *)
Definition read_paramset (self : HomeMaticLegacyCollector)
           (device : HomeMaticRPCDevice) (allowFailedChannel : bool)
  : result (dict pyval) :=
  match paramset (client self) (address device) with
  | Ok p => Ok p
  | Raise Fault => if allowFailedChannel then Ok [] else Raise Fault
  | Raise e => Raise e
  end.

(** The body of [for device in devices]; the branches that only log are
    left out. *)
Definition process_device (self : HomeMaticLegacyCollector)
           (device : HomeMaticRPCDevice) (metrics : dict MetricFamily)
  : result (dict MetricFamily) :=
  if str_in (parent_type device) (supported_device_types self) then
    allowFailedChannel <- allow_failed_channel self device ;;
    if str_in "VALUES" (paramsets device) then
      paramset <- read_paramset self device allowFailedChannel ;;
      paramsetDescription <- paramset_description (client self) (address device) ;;
      for_each (process_param self device paramset) paramsetDescription metrics
    else Ok metrics
  else Ok metrics.

(** [generate_metrics], started on whatever [self.metrics] holds. *)
Definition generate_metrics (self : HomeMaticLegacyCollector)
           (metrics : dict MetricFamily) : result (dict MetricFamily) :=
  let devices := client_devices (client self) in
  let metrics :=
    dict_set "devicecount"
      (GaugeMetricFamily (namespace ++ "_devicecount")
         "Number of processed/supported devices" ["ccu"] EmptyString)
      metrics in
  let metrics :=
    add_to "devicecount" [host self]
           (inject_Z (Z.of_nat (List.length devices))) metrics in
  for_each (process_device self) devices metrics.

(** [collect]: the families yielded by one pass; afterwards
    [self.metrics] is the empty dictionary again. *)
Definition collect (self : HomeMaticLegacyCollector)
           (metrics : dict MetricFamily) : result (list MetricFamily) :=
  m <- generate_metrics self metrics ;;
  Ok (dict_values m).

End Legacy.

(** ** exporter.py *)

Module Exporter.

(** Truth value of an optional command-line string. *)
Definition truthy (arg : option string) : bool :=
  match arg with
  | Some (String _ _) => true
  | _ => false
  end.

(** The [auth] tuple that [main] builds from [--ccu_user], [--ccu_pass]
    and [--ccu_session_id] and hands to either collector. *)
Definition auth (ccu_user ccu_pass ccu_session_id : option string)
  : list (option string) :=
  if truthy ccu_user && truthy ccu_pass then [ccu_user; ccu_pass]
  else if truthy ccu_session_id then [None; ccu_session_id]
  else [None; None].

(** The parsed command line, as far as [main] reads it.  [--port] is a
    string when given and the integer 8010 otherwise. *)
Record Args : Type := mkArgs {
  ccu_host : string;
  ccu_port : Py.pyval;
  ccu_user : option string;
  ccu_pass : option string;
  ccu_session_id : option string;
  port : Py.pyval;
  config_file : option string;
  dump_devices : bool;
  dump_parameters : option string;
  dump_device_names : bool
}.

(** What [main] ends up doing. *)
Inductive action : Type :=
| PrintDevices
| PrintDeviceNames
| PrintParameters (address : string)
| PrintNothing
| ServeLegacy (host : string) (ccu_port : Py.pyval)
              (auth : list (option string)) (config_filename : option string)
              (port : Z)
| ServeXml (collector : XmlApi.HomeMaticCollector) (port : Z).

(** [main], after the command line is parsed.  The collector is built
    and registered before the port is converted. *)
Definition main (args : Args) : result action :=
  let auth := auth (ccu_user args) (ccu_pass args) (ccu_session_id args) in
  if dump_devices args
     || truthy (dump_parameters args)
     || (dump_device_names args && negb (truthy (ccu_session_id args)))
  then
    if dump_devices args then Ok PrintDevices
    else if dump_device_names args then Ok PrintDeviceNames
    else match dump_parameters args with
         | Some (String c address) => Ok (PrintParameters (String c address))
         | _ => Ok PrintNothing
         end
  else if negb (truthy (ccu_session_id args)) then
    p <- Py.int (port args) ;;
    Ok (ServeLegacy (ccu_host args) (ccu_port args) auth (config_file args) p)
  else
    collector <- XmlApi.init (ccu_host args) auth false ;;
    p <- Py.int (port args) ;;
    Ok (ServeXml collector p).

End Exporter.

(** ** Sequences of calls and invariants of the batches *)

Module Runs.
Section WithFunc.
Variables K V : Type.
Variable K_eqb : K -> K -> bool.
Variable func : nat -> K -> result V.

(** The cache after a sequence of calls, each with its clock reading and
    its arguments, whatever the calls returned. *)
Definition call_all (seconds_to_live : Z) (maxsize : nat)
           (calls : list (Q * K)) (st : Cache.state K V) : Cache.state K V :=
  fold_left
    (fun s c => snd (Cache.ttl_lru_cache K_eqb func seconds_to_live maxsize
                                         (fst c) (snd c) s))
    calls st.
End WithFunc.

(** Every observation of a batch has a value for each label name of its
    family, and the first of them is the controller's host. *)
Definition well_labelled (host : string)
           (metrics : Py.dict Prom.MetricFamily) : Prop :=
  forall key f s,
    Py.dict_get key metrics = Some f ->
    In s (Prom.samples f) ->
    map fst (Prom.labels s) = Prom.labelnames f
    /\ hd_error (map snd (Prom.labels s)) = Some host.


End Runs.

(** ** Notions of the specification *)

Module Spec.
Import Py Prom XmlApi.
Local Open Scope string_scope.

(** *** Directory membership (section 4.2) *)

Section Membership.
Variable E : Type.
Variable channels : E -> list Z.

(** The member collection of every entry is a set. *)
Definition member_sets (directory : list E) : Prop :=
  forall e, In e directory -> NoDup (channels e).

(** Exactly one entry, [e], has the channel among its members. *)
Definition only_entry (id : Z) (directory : list E) (e : E) : Prop :=
  exists l1 l2,
    directory = (l1 ++ e :: l2)%list
    /\ In id (channels e)
    /\ forall e', In e' (l1 ++ l2)%list -> ~ In id (channels e').

Definition no_entry (id : Z) (directory : list E) : Prop :=
  forall e, In e directory -> ~ In id (channels e).

Definition several_entries (id : Z) (directory : list E) : Prop :=
  exists l1 e1 l2 e2 l3,
    directory = (l1 ++ e1 :: l2 ++ e2 :: l3)%list
    /\ In id (channels e1) /\ In id (channels e2).
End Membership.

(** *** The declared dispatch table (section 4.3): metric kind and
    conversion for a raw type and unit, [None] where the reading is
    dropped. *)
Definition declared_table (t : DataPointType.t) (u : DataPointUnit.t)
  : option (string * (Q -> Q)) :=
  match t, u with
  | DataPointType.RSSI_DEVICE, _ => Some ("rssi", fun x => x)
  | DataPointType.RSSI_PEER, _ => Some ("rssi", fun x => x)
  | DataPointType.ACTUAL_TEMPERATURE, _ => Some ("temperature", fun x => x)
  | DataPointType.TEMPERATURE, _ => Some ("temperature", fun x => x)
  | DataPointType.HUMIDITY, DataPointUnit.DECIMAL_PERCENT =>
      Some ("humidity", fun x => x / 100)
  | DataPointType.HUMIDITY, _ => Some ("humidity", fun x => x)
  | DataPointType.LEVEL, DataPointUnit.PERCENT => Some ("level", fun x => x)
  | DataPointType.OPERATING_VOLTAGE, DataPointUnit.UNKNOWN =>
      Some ("battery", fun x => x)
  | DataPointType.ENERGY_COUNTER, DataPointUnit.WATT_HOUR =>
      Some ("energy", fun x => x * 3600)
  | DataPointType.ENERGY_COUNTER, DataPointUnit.WATT =>
      Some ("energy", fun x => x)
  | DataPointType.CURRENT, DataPointUnit.MILLI_AMPERE =>
      Some ("current", fun x => x / 1000)
  | DataPointType.CURRENT, _ => Some ("current", fun x => x)
  | DataPointType.VOLTAGE, DataPointUnit.VOLTAGE => Some ("voltage", fun x => x)
  | DataPointType.POWER, DataPointUnit.WATT => Some ("power", fun x => x)
  | _, _ => None
  end.

(** The table with one more row: ENERGY_COUNTER in any other unit is
    kept as it is. *)
Definition amended_table (t : DataPointType.t) (u : DataPointUnit.t)
  : option (string * (Q -> Q)) :=
  match t, declared_table t u with
  | DataPointType.ENERGY_COUNTER, None => Some ("energy", fun x => x)
  | _, row => row
  end.

(** Metric kind and value of each observation. *)
Definition kind_values (obs : list (string * Sample)) : list (string * Q) :=
  map (fun o => (fst o, sample_value (snd o))) obs.

(** What a table row promises for a raw value. *)
Definition promised (row : option (string * (Q -> Q))) (raw : dpvalue)
  : list (string * Q) :=
  match row with
  | Some (kind, conversion) => [(kind, conversion (floatify raw))]
  | None => []
  end.

(** The same kinds, and values that are equal as numbers. *)
Definition same_readings (a b : list (string * Q)) : Prop :=
  Forall2 (fun x y => fst x = fst y /\ snd x == snd y) a b.

(** *** Batches *)

(** The families of a batch without their samples. *)
Definition shape (metrics : dict MetricFamily) : list (string * list string) :=
  map (fun kf => (fst kf, labelnames (snd kf))) metrics.

(** The family a state gauge goes to, when there already, was made for
    state gauges. *)
Definition enum_family_ok (gaugename : string) (metrics : dict MetricFamily)
  : Prop :=
  match dict_get gaugename metrics with
  | Some f => labelnames f = (Legacy.single_labelnames ++ ["state"])%list
  | None => True
  end.

(** The batch holds the device count of the legacy collector: the
    family under "devicecount" starts with the number of devices of the
    snapshot, labelled with the controller's host. *)
Definition counted (self : Legacy.HomeMaticLegacyCollector)
           (metrics : dict MetricFamily) : Prop :=
  exists f rest,
    dict_get "devicecount" metrics = Some f
    /\ samples f
       = mkSample [("ccu", Legacy.host self)]
           (inject_Z (Z.of_nat (List.length
                                  (Legacy.client_devices (Legacy.client self)))))
         :: rest.

(** The one-hot value of a state. *)
Definition one_hot (state istate : string) : Q :=
  inject_Z (if String.eqb state istate then 1 else 0).

End Spec.

(** ** The cached methods of xml_api.py

    [rooms], [functions], [devices] and the three lookups are decorated
    with [ttl_lru_cache]; the function a lookup wraps calls a decorated
    directory method in turn.  The caches of the six methods are the
    state; what the controller lists is a function of the time of the
    call, and one call reads the clock as [now] throughout. *)

Module Decorated.
Import XmlApi.
Local Open Scope string_scope.

(** [ttl_lru_cache] around a function that works on a state [S] of which
    the cache of the decorated function, read by [get] and written by
    [set], is a part. *)
Section Decorator.
Variables S K V : Type.
Variable K_eqb : K -> K -> bool.
Variable get : S -> list ((Z * K) * V).
Variable set : list ((Z * K) * V) -> S -> S.

Definition ttl_lru_cache (seconds_to_live : Z) (maxsize : nat)
           (func : K -> S -> result V * S)
           (now : Q) (args : K) (s : S) : result V * S :=
  if Z.eqb seconds_to_live 0 then (Raise ZeroDivisionError, s)
  else
    let key := (Cache.window seconds_to_live now, args) in
    match lru_find (Cache.wkey_eqb K_eqb) key (get s) with
    | Some v => (Ok v, set (lru_touch (Cache.wkey_eqb K_eqb) key v (get s)) s)
    | None =>
        match func args s with
        | (Ok v, s1) => (Ok v, set (lru_insert maxsize key v (get s1)) s1)
        | (Raise e, s1) => (Raise e, s1)
        end
    end.
End Decorator.

(** What the controller lists when asked at a given time. *)
Record Controller : Type := mkController {
  roomlist : Q -> result (list Room);
  functionlist : Q -> result (list Function);
  devicelist : Q -> result (list Device)
}.

(** The caches of the six decorated methods of one collector. *)
Record Caches : Type := mkCaches {
  rooms_cache : list ((Z * unit) * list Room);
  functions_cache : list ((Z * unit) * list Function);
  devices_cache : list ((Z * unit) * list Device);
  room_of : list ((Z * Z) * string);
  address_of : list ((Z * Z) * (string * string));
  function_of : list ((Z * Z) * string)
}.


Definition set_rooms_cache c (s : Caches) : Caches :=
  mkCaches c (functions_cache s) (devices_cache s)
           (room_of s) (address_of s) (function_of s).

Definition set_functions_cache c (s : Caches) : Caches :=
  mkCaches (rooms_cache s) c (devices_cache s)
           (room_of s) (address_of s) (function_of s).

Definition set_devices_cache c (s : Caches) : Caches :=
  mkCaches (rooms_cache s) (functions_cache s) c
           (room_of s) (address_of s) (function_of s).

Definition set_room_of c (s : Caches) : Caches :=
  mkCaches (rooms_cache s) (functions_cache s) (devices_cache s)
           c (address_of s) (function_of s).

Definition set_address_of c (s : Caches) : Caches :=
  mkCaches (rooms_cache s) (functions_cache s) (devices_cache s)
           (room_of s) c (function_of s).

Definition set_function_of c (s : Caches) : Caches :=
  mkCaches (rooms_cache s) (functions_cache s) (devices_cache s)
           (room_of s) (address_of s) c.

(** The one collector is the only argument of the directory methods. *)
Definition unit_eqb (_ _ : unit) : bool := true.

(** [@ttl_lru_cache(3600) def rooms(self)] *)
Definition rooms (ctl : Controller) (now : Q) (s : Caches)
  : result (list Room) * Caches :=
  ttl_lru_cache unit_eqb rooms_cache set_rooms_cache 3600 128
                (fun _ s => (roomlist ctl now, s)) now tt s.

(** [@ttl_lru_cache(3100) def functions(self)] *)
Definition functions (ctl : Controller) (now : Q) (s : Caches)
  : result (list Function) * Caches :=
  ttl_lru_cache unit_eqb functions_cache set_functions_cache 3100 128
                (fun _ s => (functionlist ctl now, s)) now tt s.

(** [@ttl_lru_cache(3200) def devices(self)] *)
Definition devices (ctl : Controller) (now : Q) (s : Caches)
  : result (list Device) * Caches :=
  ttl_lru_cache unit_eqb devices_cache set_devices_cache 3200 128
                (fun _ s => (devicelist ctl now, s)) now tt s.

(** The function a lookup wraps: it asks for the directory and scans
    it. *)
Definition scan {E L : Type}
           (directory : Caches -> result (list E) * Caches)
           (label : list E -> Z -> L) (ise_id : Z) (s : Caches)
  : result L * Caches :=
  match directory s with
  | (Ok entries, s1) => (Ok (label entries ise_id), s1)
  | (Raise e, s1) => (Raise e, s1)
  end.

(** [@ttl_lru_cache(60) def get_room_of_device(self, ise_id)] *)
Definition get_room_of_device (ctl : Controller) (now : Q) (ise_id : Z)
           (s : Caches) : result string * Caches :=
  ttl_lru_cache Z.eqb room_of set_room_of 60 128
                (scan (rooms ctl now) XmlApi.get_room_of_device) now ise_id s.

(** [@ttl_lru_cache(100) def get_device_address_of_device(self, ise_id)] *)
Definition get_device_address_of_device (ctl : Controller) (now : Q)
           (ise_id : Z) (s : Caches) : result (string * string) * Caches :=
  ttl_lru_cache Z.eqb address_of set_address_of 100 128
                (scan (devices ctl now) XmlApi.get_device_address_of_device)
                now ise_id s.

(** [@ttl_lru_cache(94) def get_function_of_device(self, ise_id)] *)
Definition get_function_of_device (ctl : Controller) (now : Q) (ise_id : Z)
           (s : Caches) : result string * Caches :=
  ttl_lru_cache Z.eqb function_of set_function_of 94 128
                (scan (functions ctl now) XmlApi.get_function_of_device)
                now ise_id s.


End Decorated.

(** ** Steps of a pass *)

Module Steps.


End Steps.

(** ** Concrete inputs *)

Module Scenario.
Import Py Prom.
Local Open Scope string_scope.

(** *** For the caches: two functions of one integer argument *)

(** Answers with the number of the invocation. *)
Definition counting (n : nat) (_ : Z) : result nat := Ok n.

(** Raises on its second invocation. *)
Definition flaky (n : nat) (_ : Z) : result nat :=
  match n with
  | 1%nat => Raise Fault
  | _ => Ok n
  end.

(** The state [ttl_lru_cache(60)] is in after a first call at time 59. *)
Definition after_first_call : Cache.state Z nat :=
  snd (Cache.ttl_lru_cache Z.eqb counting 60 128 59 7%Z (Cache.empty Z nat)).

(** A value of [flaky] cached in window 0, and the same value held by
    [lru_cache_with_ttl] until time 60. *)
(** The state [lru_cache_with_ttl(ttl=60)] is in after a first call at
    time 59. *)
Definition after_first_call' : Cache.state' Z nat :=
  snd (Cache.lru_cache_with_ttl Z.eqb counting 128 60 59 7%Z (Cache.empty' Z nat)).

Definition stale : Cache.state Z nat :=
  Cache.mkState [((0%Z, 7%Z), 0%nat)] 1.

Definition stale' : Cache.state' Z nat :=
  Cache.mkState' [(7%Z, Cache.mkResult 0%nat 60)] 1.

(** *** For the state-listing collector *)

Definition xml_collector : XmlApi.HomeMaticCollector :=
  XmlApi.mkCollector "ccu.local" (XmlApi.mkPyCCU3 "ccu.local" (Some "sid") false).

Definition kitchen : XmlApi.Room := XmlApi.mkRoom "Kitchen" [7%Z; 8%Z].
Definition hall : XmlApi.Room := XmlApi.mkRoom "Hall" [9%Z].
Definition pantry : XmlApi.Room := XmlApi.mkRoom "Pantry" [8%Z].

Definition heating : XmlApi.Function := XmlApi.mkFunction "Heating" [7%Z].

Definition thermostat : XmlApi.Device :=
  XmlApi.mkDevice "Thermostat" "000A1B2C3D4E5F" "HmIP-eTRV-2" [7%Z].

Definition directories : XmlApi.Directories :=
  XmlApi.mkDirectories [kitchen; hall; pantry] [heating] [thermostat].

(** One device with one channel that reports its temperature under both
    raw types. *)
Definition two_temperatures : list XmlApi.StateDevice :=
  [XmlApi.mkStateDevice "Thermostat"
     [XmlApi.mkChannel 7 "Thermostat:1"
        [XmlApi.mkDatapoint XmlApi.DataPointType.TEMPERATURE
                            XmlApi.DataPointUnit.UNKNOWN (XmlApi.Number 20);
         XmlApi.mkDatapoint XmlApi.DataPointType.ACTUAL_TEMPERATURE
                            XmlApi.DataPointUnit.UNKNOWN (XmlApi.Number 21)]]].

Definition thermostat_labels : list (string * string) :=
  [("ccu", "ccu.local"); ("device_name", "Thermostat");
   ("device_address", "000A1B2C3D4E5F"); ("device_type", "HmIP-eTRV-2");
   ("channel_name", "Thermostat:1"); ("room", "Kitchen");
   ("function", "Heating")].

(** One device without any reading. *)
Definition silent_device : list XmlApi.StateDevice :=
  [XmlApi.mkStateDevice "Thermostat" [XmlApi.mkChannel 7 "Thermostat:1" []]].

(** *** For the legacy collector *)

Definition window_contact : Legacy.HomeMaticRPCDevice :=
  Legacy.mkRPCDevice "000A1B2C3D4E5F:1" "SHUTTER_CONTACT" "000A1B2C3D4E5F"
                     "HmIP-SWDO" [] ["MASTER"; "VALUES"] false.

(** A controller with one channel, whose values and description are
    given. *)
Definition controller (values : dict pyval) (description : dict Legacy.ParamDesc)
  : Legacy.PyCCU3Legacy :=
  Legacy.mkClient [window_contact]
                  (fun _ => Ok values) (fun _ => Ok description)
                  [Legacy.mkNameMapping "000A1B2C3D4E5F:1" (Some "Window")].

Definition supported : list string := ["HmIP-SWDO"].

(** The collector made without a configuration file. *)
Definition legacy_collector (values : dict pyval)
           (description : dict Legacy.ParamDesc)
  : Legacy.HomeMaticLegacyCollector :=
  Legacy.init supported [] "ccu.local" (controller values description) None.

Definition state_desc : dict Legacy.ParamDesc :=
  [("STATE", Legacy.mkParamDesc (Some "ENUM") (Some ["OPEN"; "CLOSED"]))].

Definition temperature_desc : dict Legacy.ParamDesc :=
  [("ACTUAL_TEMPERATURE", Legacy.mkParamDesc (Some "FLOAT") None);
   ("HUMIDITY", Legacy.mkParamDesc (Some "INTEGER") None)].

(** A configuration file that names the channel. *)
Definition config : Legacy.Config :=
  Legacy.mkConfig (Some [("000A1B2C3D4E5F:1", "Front window")]) None None.

Definition window_labels (state : string) : list (string * string) :=
  [("ccu", "ccu.local"); ("device", "000A1B2C3D4E5F:1");
   ("device_type", "SHUTTER_CONTACT"); ("parent_device_type", "HmIP-SWDO");
   ("mapped_name", "Window"); ("state", state)].

(** A controller that answers every read of values with a fault, and a
    collector on it that allows failures on the listed channels of the
    window contact's parent type. *)
Definition faulty_controller : Legacy.PyCCU3Legacy :=
  Legacy.mkClient [window_contact]
                  (fun _ => Raise Fault) (fun _ => Ok state_desc) [].

Definition faulty_collector (allowed : list Z) : Legacy.HomeMaticLegacyCollector :=
  Legacy.init supported [("HmIP-SWDO", allowed)] "ccu.local" faulty_controller None.

(** The same with a controller on which the description cannot be read
    either. *)
Definition faultier_collector (allowed : list Z) : Legacy.HomeMaticLegacyCollector :=
  Legacy.init supported [("HmIP-SWDO", allowed)] "ccu.local"
              (Legacy.mkClient [window_contact]
                               (fun _ => Raise Fault) (fun _ => Raise Fault) [])
              None.

(** A collector that supports no device type. *)
Definition blind_collector : Legacy.HomeMaticLegacyCollector :=
  Legacy.init [] [] "ccu.local" (controller [("STATE", PInt 1)] state_desc) None.

(** A dictionary that a pass left behind. *)
Definition left_behind : dict MetricFamily :=
  [("state_set",
    add_metric ["ccu.local"; "000A1B2C3D4E5F:1"; "SHUTTER_CONTACT"; "HmIP-SWDO";
                "Window"; "OPEN"] 1
      (GaugeMetricFamily "homematic_state_set" "Metrics for STATE"
         (Legacy.single_labelnames ++ ["state"])%list EmptyString))].



(** The command line [--ccu_host ccu.local --ccu_session_id sid
    --dump_device_names]. *)
Definition session_args : Exporter.Args :=
  Exporter.mkArgs "ccu.local" (PInt 2010) None None (Some "sid") (PInt 8010)
                  None false None true.

End Scenario.

(** * Properties *)

(** ** The LRU list *)

Section LruFacts.
Variables Key Val : Type.
Variable key_eqb : Key -> Key -> bool.
Hypothesis key_eqb_refl : forall k, key_eqb k k = true.

Lemma lru_find_touch (k : Key) (v : Val) (c : list (Key * Val)) :
  lru_find key_eqb k (lru_touch key_eqb k v c) = Some v.
Proof. unfold lru_touch; simpl. now rewrite key_eqb_refl. Qed.

Lemma lru_find_insert (maxsize : nat) (k : Key) (v : Val) (c : list (Key * Val)) :
  (0 < maxsize)%nat ->
  lru_find key_eqb k (lru_insert maxsize k v c) = Some v.
Proof.
  intros Hpos. unfold lru_insert.
  destruct maxsize as [|n]; [lia|]. simpl. now rewrite key_eqb_refl.
Qed.

Lemma Forall_lru_remove (P : Key * Val -> Prop) (k : Key) (c : list (Key * Val)) :
  Forall P c -> Forall P (lru_remove key_eqb k c).
Proof.
  induction 1 as [|[k' v'] c' Hhd Htl IH]; simpl; [constructor|].
  destruct (key_eqb k k'); [assumption | now constructor].
Qed.

Lemma Forall_lru_insert (P : Key * Val -> Prop) (n : nat) (k : Key) (v : Val)
      (c : list (Key * Val)) :
  P (k, v) -> Forall P c -> Forall P (lru_insert n k v c).
Proof.
  intros Hk Hc. unfold lru_insert.
  apply Forall_forall. intros x Hx.
  assert (Hall : Forall P ((k, v) :: c)) by now constructor.
  rewrite Forall_forall in Hall. apply Hall.
  revert Hx. clear. revert n.
  generalize ((k, v) :: c) as l.
  induction l as [|a l IH]; intros [|n] Hx; simpl in *; try contradiction.
  destruct Hx as [->|Hx]; [now left | right; eauto].
Qed.

Lemma lru_find_update_same (k : Key) (v r : Val) (c : list (Key * Val)) :
  lru_find key_eqb k c = Some r ->
  lru_find key_eqb k (lru_update key_eqb k v c) = Some v.
Proof.
  induction c as [|[k' v'] c' IH]; simpl; [discriminate|].
  destruct (key_eqb k k') eqn:E; simpl; rewrite E; auto.
Qed.
End LruFacts.

(** ** Time windows *)

Section WindowFacts.
Variable ttl : Z.
Hypothesis ttl_pos : (0 < ttl)%Z.

Local Abbreviation t := (inject_Z ttl).

Lemma ttl_Qpos : 0 < t.
Proof. change (inject_Z 0 < inject_Z ttl). rewrite <- Zlt_Qlt. exact ttl_pos. Qed.

Lemma ttl_Qneq : ~ t == 0.
Proof. intro H. pose proof ttl_Qpos as P. rewrite H in P. now apply Qlt_irrefl in P. Qed.

Lemma window_bounds (now : Q) :
  inject_Z (Cache.window ttl now) * t <= now /\
  now < (inject_Z (Cache.window ttl now) + 1) * t.
Proof.
  unfold Cache.window.
  pose proof ttl_Qpos as P. pose proof ttl_Qneq as N.
  assert (E : now == now / t * t) by (field; exact N).
  pose proof (Qfloor_le (now / t)) as Hlo.
  pose proof (Qlt_floor (now / t)) as Hhi.
  rewrite inject_Z_plus in Hhi. change (inject_Z 1) with 1 in Hhi.
  split.
  - rewrite E at 2. apply Qmult_le_compat_r; [exact Hlo | now apply Qlt_le_weak].
  - rewrite E at 1. apply Qmult_lt_compat_r; assumption.
Qed.

(** Two readings of one window are less than [ttl] apart. *)
Lemma window_same_lt (now now' : Q) :
  Cache.window ttl now' = Cache.window ttl now -> now' - now < t.
Proof.
  intros E.
  destruct (window_bounds now) as [Hlo _].
  destruct (window_bounds now') as [_ Hhi].
  rewrite E in Hhi.
  set (w := inject_Z (Cache.window ttl now)) in *.
  assert (X : (w + 1) * t == w * t + t) by ring.
  rewrite X in Hhi. lra.
Qed.

(** Once [ttl] has gone by, the window is a later one. *)
Lemma window_after_ttl (now now' : Q) :
  now + t <= now' -> (Cache.window ttl now < Cache.window ttl now')%Z.
Proof.
  intros H.
  destruct (window_bounds now) as [Hlo _].
  destruct (window_bounds now') as [_ Hhi].
  set (w := Cache.window ttl now) in *.
  set (w' := Cache.window ttl now') in *.
  assert (L : inject_Z w * t + t < (inject_Z w' + 1) * t) by lra.
  assert (L' : (inject_Z w + 1) * t < (inject_Z w' + 1) * t).
  { assert (X : (inject_Z w + 1) * t == inject_Z w * t + t) by ring.
    now rewrite X. }
  apply Qmult_lt_r in L'; [| exact ttl_Qpos].
  assert (L2 : inject_Z w < inject_Z w') by lra.
  now rewrite <- Zlt_Qlt in L2.
Qed.

(** The clock not running backwards, the window does not either. *)
Lemma window_mono (now now' : Q) :
  now <= now' -> (Cache.window ttl now <= Cache.window ttl now')%Z.
Proof.
  intros H. unfold Cache.window. apply Qfloor_resp_le.
  apply Qmult_le_compat_r; [exact H|].
  apply Qlt_le_weak, Qinv_lt_0_compat, ttl_Qpos.
Qed.
End WindowFacts.

(** ** cache.py *)

Section CacheFacts.
Variables K V : Type.
Variable K_eqb : K -> K -> bool.
Hypothesis K_eqb_refl : forall a, K_eqb a a = true.
Variable func : nat -> K -> result V.

Local Abbreviation state := (Cache.state K V).
Local Abbreviation ttl_lru_cache := (Cache.ttl_lru_cache K_eqb func).
Local Abbreviation lru_cache_with_ttl := (Cache.lru_cache_with_ttl K_eqb func).
Local Abbreviation wkey_eqb := (Cache.wkey_eqb K_eqb).

Lemma wkey_eqb_refl (k : Z * K) : wkey_eqb k k = true.
Proof. unfold Cache.wkey_eqb. now rewrite Z.eqb_refl, K_eqb_refl. Qed.

Lemma wkey_eqb_window (a b : Z * K) : wkey_eqb a b = true -> fst a = fst b.
Proof.
  unfold Cache.wkey_eqb. intros H. apply andb_true_iff in H.
  now apply Z.eqb_eq.
Qed.

(** A hit answers from the cache and leaves the call count alone. *)
Lemma inner_hit (maxsize : nat) (w : Z) (k : K) (v : V) (st : state) :
  lru_find wkey_eqb (w, k) (Cache.cache st) = Some v ->
  exists st', Cache.inner K_eqb func maxsize w k st = (Ok v, st')
              /\ Cache.calls st' = Cache.calls st
              /\ lru_find wkey_eqb (w, k) (Cache.cache st') = Some v.
Proof.
  intros H. unfold Cache.inner. rewrite H. eexists. split; [reflexivity|].
  split; [reflexivity|]. simpl. apply lru_find_touch, wkey_eqb_refl.
Qed.

(** A miss calls the function once, whatever it answers. *)
Lemma inner_miss (maxsize : nat) (w : Z) (k : K) (st : state) :
  lru_find wkey_eqb (w, k) (Cache.cache st) = None ->
  exists st', Cache.inner K_eqb func maxsize w k st
              = (func (Cache.calls st) k, st')
              /\ Cache.calls st' = S (Cache.calls st).
Proof.
  intros H. unfold Cache.inner. rewrite H.
  destruct (func (Cache.calls st) k); eexists; split; reflexivity.
Qed.

(** What a successful call returned is what the cache holds for the
    window of the call. *)
Lemma inner_ok_cached (maxsize : nat) (w : Z) (k : K) (v : V) (st st1 : state) :
  (0 < maxsize)%nat ->
  Cache.inner K_eqb func maxsize w k st = (Ok v, st1) ->
  lru_find wkey_eqb (w, k) (Cache.cache st1) = Some v.
Proof.
  intros Hpos. unfold Cache.inner.
  destruct (lru_find wkey_eqb (w, k) (Cache.cache st)) as [v0|] eqn:E.
  - intros H. inversion H; subst. simpl. apply lru_find_touch, wkey_eqb_refl.
  - destruct (func (Cache.calls st) k); intros H; inversion H; subst. simpl.
    apply lru_find_insert; [apply wkey_eqb_refl | assumption].
Qed.

Lemma inner_windows_upto (maxsize : nat) (w b : Z) (k : K) (st st1 : state)
      (r : result V) :
  (w <= b)%Z ->
  Cache.windows_upto b st ->
  Cache.inner K_eqb func maxsize w k st = (r, st1) ->
  Cache.windows_upto b st1.
Proof.
  intros Hw Hall. unfold Cache.inner, Cache.windows_upto in *.
  destruct (lru_find wkey_eqb (w, k) (Cache.cache st)) as [v0|].
  - intros H. inversion H; subst. simpl. unfold lru_touch.
    constructor; [exact Hw | now apply Forall_lru_remove].
  - destruct (func (Cache.calls st) k); intros H; inversion H; subst; simpl.
    + now apply Forall_lru_insert.
    + assumption.
Qed.

(** A cache filled in windows up to [b] has nothing for a later one. *)
Lemma fresh_window_miss (b w : Z) (k : K) (st : state) :
  Cache.windows_upto b st -> (b < w)%Z ->
  lru_find wkey_eqb (w, k) (Cache.cache st) = None.
Proof.
  unfold Cache.windows_upto. intros Hall Hlt.
  induction Hall as [|[k' v'] c Hhd Htl IH]; simpl; [reflexivity|].
  destruct (wkey_eqb (w, k) k') eqn:E; [|exact IH].
  apply wkey_eqb_window in E. simpl in *. lia.
Qed.

Lemma ttl_lru_cache_unfold (ttl : Z) (maxsize : nat) (now : Q) (k : K) (st : state) :
  ttl <> 0%Z ->
  ttl_lru_cache ttl maxsize now k st
  = Cache.inner K_eqb func maxsize (Cache.window ttl now) k st.
Proof.
  intros H. unfold Cache.ttl_lru_cache.
  destruct (Z.eqb_spec ttl 0); [contradiction | reflexivity].
Qed.

(** Along a clock that does not run backwards the cache only ever holds
    windows up to the current one, starting from the empty cache. *)
Lemma ttl_lru_cache_windows_upto (ttl : Z) (maxsize : nat) (now0 now : Q)
      (k : K) (st st1 : state) (r : result V) :
  (0 < ttl)%Z -> now0 <= now ->
  Cache.windows_upto (Cache.window ttl now0) st ->
  ttl_lru_cache ttl maxsize now k st = (r, st1) ->
  Cache.windows_upto (Cache.window ttl now) st1.
Proof.
  intros Httl Hclock Hupto Hcall.
  rewrite ttl_lru_cache_unfold in Hcall by lia.
  apply (inner_windows_upto _ _ (Z.le_refl _)) in Hcall; [exact Hcall|].
  pose proof (window_mono Httl Hclock) as Hw.
  unfold Cache.windows_upto in *.
  eapply Forall_impl; [|exact Hupto]. intros e He. simpl in He. lia.
Qed.

(** *** [lru_cache_with_ttl] *)

Lemma Qltb_lt (a b : Q) : Cache.Qltb a b = true <-> a < b.
Proof.
  unfold Cache.Qltb. rewrite negb_true_iff.
  split; intros H.
  - apply Qnot_le_lt. intros L. apply Qle_bool_iff in L. congruence.
  - destruct (Qle_bool b a) eqn:E; [|reflexivity].
    apply Qle_bool_iff in E. exfalso. exact (Qlt_not_le _ _ H E).
Qed.

Lemma Qltb_ge (a b : Q) : Cache.Qltb a b = false <-> b <= a.
Proof.
  unfold Cache.Qltb. rewrite negb_false_iff. apply Qle_bool_iff.
Qed.

(** A held value that has not died is returned as it is. *)
Lemma with_ttl_fresh (maxsize : nat) (ttl now : Q) (k : K)
      (r : Cache.Result V) (st : Cache.state' K V) :
  lru_find K_eqb k (Cache.cache' st) = Some r ->
  now <= Cache.death r ->
  exists st', lru_cache_with_ttl maxsize ttl now k st = (Ok (Cache.value r), st')
              /\ Cache.calls' st' = Cache.calls' st
              /\ lru_find K_eqb k (Cache.cache' st') = Some r.
Proof.
  intros Hfind Hlive.
  unfold Cache.lru_cache_with_ttl, Cache.cached_func. rewrite Hfind.
  apply Qltb_ge in Hlive. rewrite Hlive.
  eexists. split; [reflexivity|]. split; [reflexivity|].
  simpl. now apply lru_find_touch.
Qed.

(** A held value that has died is refreshed by one call of the function. *)
Lemma with_ttl_expired (maxsize : nat) (ttl now : Q) (k : K)
      (r : Cache.Result V) (st : Cache.state' K V) :
  lru_find K_eqb k (Cache.cache' st) = Some r ->
  Cache.death r < now ->
  exists st', fst (lru_cache_with_ttl maxsize ttl now k st) = func (Cache.calls' st) k
              /\ snd (lru_cache_with_ttl maxsize ttl now k st) = st'
              /\ Cache.calls' st' = S (Cache.calls' st)
              /\ lru_find K_eqb k (Cache.cache' st')
                 = match func (Cache.calls' st) k with
                   | Ok v => Some (Cache.mkResult v (now + ttl))
                   | Raise _ => Some r
                   end.
Proof.
  intros Hfind Hdead.
  unfold Cache.lru_cache_with_ttl, Cache.cached_func. rewrite Hfind.
  apply Qltb_lt in Hdead. rewrite Hdead.
  cbn [Cache.cache' Cache.calls' Cache.death].
  destruct (func (Cache.calls' st) k) as [v|e];
    cbn [fst snd Cache.cache' Cache.calls'];
    eexists; repeat split; try reflexivity.
  - apply lru_find_update_same with (r := r).
    now apply lru_find_touch.
  - now apply lru_find_touch.
Qed.

(** After a call that invoked the function and returned [v], the cache
    holds [v] with its death [ttl] after the call. *)
Lemma with_ttl_computed_held (maxsize : nat) (ttl now : Q) (k : K) (v : V)
      (st st1 : Cache.state' K V) :
  (0 < maxsize)%nat -> 0 <= ttl ->
  lru_cache_with_ttl maxsize ttl now k st = (Ok v, st1) ->
  Cache.calls' st1 <> Cache.calls' st ->
  lru_find K_eqb k (Cache.cache' st1) = Some (Cache.mkResult v (now + ttl)).
Proof.
  intros Hmax Httl. unfold Cache.lru_cache_with_ttl, Cache.cached_func.
  destruct (lru_find K_eqb k (Cache.cache' st)) as [r|] eqn:Hfind.
  - destruct (Cache.Qltb (Cache.death r) now).
    + cbn [Cache.cache' Cache.calls'].
      destruct (func (Cache.calls' st) k) as [v1|]; intros H;
        [|discriminate].
      pose proof (f_equal snd H) as Hst. pose proof (f_equal fst H) as Hv.
      cbn [fst snd] in Hst, Hv. injection Hv as ->. subst st1.
      intros _. cbn [Cache.cache'].
      apply lru_find_update_same with (r := r). now apply lru_find_touch.
    + intros H. injection H as Hv Hst. subst st1.
      intros Hne. now elim Hne.
  - destruct (func (Cache.calls' st) k) as [v1|] eqn:Hf;
      [|intros H; discriminate].
    cbn [Cache.death].
    assert (Hlive : Cache.Qltb (now + ttl) now = false).
    { apply Qltb_ge. lra. }
    rewrite Hlive. intros H.
    pose proof (f_equal snd H) as Hst. pose proof (f_equal fst H) as Hv.
    cbn [fst snd Cache.value] in Hst, Hv. injection Hv as ->. subst st1.
    intros _. cbn [Cache.cache']. now apply lru_find_insert.
Qed.

(** C2 (as amended).  [ttl_lru_cache] keeps a value for the time window
    [floor(now / ttl)] in which it was computed.  After a call that
    returned [v]: a call in the same window, which is always less than
    [ttl] later, returns [v] and does not call the function; a call in a
    later window calls the function exactly once and a further call in
    that window does not call it again; and once [ttl] has gone by the
    window is a later one.  [lru_cache_with_ttl] keeps a value by the
    time gone by: after a call that computed [v] at [now], a call no
    more than [ttl] later returns [v] without calling the function, and
    a call more than [ttl] later calls it exactly once. *)
Theorem timed_cache_reuse_and_refresh (k : K) (v : V) :
  (forall (ttl : Z) (maxsize : nat) (now : Q) (st st1 : state),
      (0 < ttl)%Z -> (0 < maxsize)%nat ->
      Cache.windows_upto (Cache.window ttl now) st ->
      ttl_lru_cache ttl maxsize now k st = (Ok v, st1) ->
      (forall now', Cache.window ttl now' = Cache.window ttl now ->
         now' - now < inject_Z ttl /\
         exists st2, ttl_lru_cache ttl maxsize now' k st1 = (Ok v, st2)
                     /\ Cache.calls st2 = Cache.calls st1)
      /\ (forall now', (Cache.window ttl now < Cache.window ttl now')%Z ->
           exists st2,
             ttl_lru_cache ttl maxsize now' k st1
             = (func (Cache.calls st1) k, st2)
             /\ Cache.calls st2 = S (Cache.calls st1)
             /\ forall v' now'',
                 func (Cache.calls st1) k = Ok v' ->
                 Cache.window ttl now'' = Cache.window ttl now' ->
                 exists st3, ttl_lru_cache ttl maxsize now'' k st2 = (Ok v', st3)
                             /\ Cache.calls st3 = Cache.calls st2)
      /\ (forall now', now + inject_Z ttl <= now' ->
           (Cache.window ttl now < Cache.window ttl now')%Z))
  /\
  (forall (maxsize : nat) (ttl now : Q) (st st1 : Cache.state' K V),
      (0 < maxsize)%nat -> 0 <= ttl ->
      lru_cache_with_ttl maxsize ttl now k st = (Ok v, st1) ->
      Cache.calls' st1 <> Cache.calls' st ->
      (forall now', now' - now <= ttl ->
         exists st2, lru_cache_with_ttl maxsize ttl now' k st1 = (Ok v, st2)
                     /\ Cache.calls' st2 = Cache.calls' st1)
      /\ (forall now', ttl < now' - now ->
            fst (lru_cache_with_ttl maxsize ttl now' k st1)
            = func (Cache.calls' st1) k
            /\ Cache.calls' (snd (lru_cache_with_ttl maxsize ttl now' k st1))
               = S (Cache.calls' st1))).
Proof.
  split.
  - intros ttl maxsize now st st1 Httl Hmax Hupto Hcall.
    assert (Hnz : ttl <> 0%Z) by lia.
    rewrite ttl_lru_cache_unfold in Hcall by exact Hnz.
    pose proof (inner_ok_cached _ _ _ Hmax Hcall) as Hheld.
    pose proof (inner_windows_upto _ _ (Z.le_refl _) Hupto Hcall) as Hupto1.
    split; [|split].
    + intros now' Hsame. split; [now apply window_same_lt|].
      rewrite ttl_lru_cache_unfold by exact Hnz. rewrite Hsame.
      destruct (inner_hit maxsize _ _ _ Hheld) as (st2 & E & Hc & _).
      now exists st2.
    + intros now' Hlater.
      rewrite ttl_lru_cache_unfold by exact Hnz.
      pose proof (fresh_window_miss k Hupto1 Hlater) as Hmiss.
      destruct (inner_miss maxsize _ _ _ Hmiss) as (st2 & E & Hc).
      exists st2. split; [exact E|]. split; [exact Hc|].
      intros v' now'' Hv' Hsame.
      rewrite ttl_lru_cache_unfold by exact Hnz. rewrite Hsame.
      rewrite Hv' in E.
      pose proof (inner_ok_cached _ _ _ Hmax E) as Hheld2.
      destruct (inner_hit maxsize _ _ _ Hheld2) as (st3 & E3 & Hc3 & _).
      now exists st3.
    + intros now' Hgone. now apply window_after_ttl.
  - intros maxsize ttl now st st1 Hmax Httl Hcall Hcomputed.
    pose proof (@with_ttl_computed_held maxsize ttl now k v st st1
                                        Hmax Httl Hcall Hcomputed) as Hheld.
    split.
    + intros now' Hnear.
      assert (Hlive : now' <= Cache.death (Cache.mkResult v (now + ttl))).
      { cbn [Cache.death]. lra. }
      destruct (@with_ttl_fresh maxsize ttl now' k _ st1 Hheld Hlive)
        as (st2 & E & Hc & _).
      now exists st2.
    + intros now' Hfar.
      assert (Hdead : Cache.death (Cache.mkResult v (now + ttl)) < now').
      { cbn [Cache.death]. lra. }
      destruct (@with_ttl_expired maxsize ttl now' k _ st1 Hheld Hdead)
        as (st2 & Hres & Hst & Hc & _).
      split; [exact Hres | now rewrite Hst].
Qed.

(** C3.  A refresh on which the function raises hands the exception to
    the caller and leaves the cache as it was, so that the value held
    before is still held under its old window (for [ttl_lru_cache]) or
    with its old time of death (for [lru_cache_with_ttl]); the next call
    for the key calls the function again. *)
Theorem failed_refresh_keeps_stale_value (k : K) (e : exn) :
  (forall (ttl : Z) (maxsize : nat) (now : Q) (st : state) (w0 : Z) (v0 : V),
      ttl <> 0%Z ->
      lru_find wkey_eqb (w0, k) (Cache.cache st) = Some v0 ->
      lru_find wkey_eqb (Cache.window ttl now, k) (Cache.cache st) = None ->
      func (Cache.calls st) k = Raise e ->
      exists st1,
        ttl_lru_cache ttl maxsize now k st = (Raise e, st1)
        /\ Cache.cache st1 = Cache.cache st
        /\ lru_find wkey_eqb (w0, k) (Cache.cache st1) = Some v0
        /\ forall now',
            lru_find wkey_eqb (Cache.window ttl now', k) (Cache.cache st) = None ->
            exists st2,
              ttl_lru_cache ttl maxsize now' k st1
              = (func (Cache.calls st1) k, st2)
              /\ Cache.calls st2 = S (Cache.calls st1))
  /\
  (forall (maxsize : nat) (ttl now : Q) (st : Cache.state' K V)
          (r : Cache.Result V),
      lru_find K_eqb k (Cache.cache' st) = Some r ->
      Cache.death r < now ->
      func (Cache.calls' st) k = Raise e ->
      exists st1,
        lru_cache_with_ttl maxsize ttl now k st = (Raise e, st1)
        /\ lru_find K_eqb k (Cache.cache' st1) = Some r
        /\ forall now',
            now <= now' ->
            fst (lru_cache_with_ttl maxsize ttl now' k st1)
            = func (Cache.calls' st1) k
            /\ Cache.calls' (snd (lru_cache_with_ttl maxsize ttl now' k st1))
               = S (Cache.calls' st1)).
Proof.
  split.
  - intros ttl maxsize now st w0 v0 Hnz Hold Hmiss Hraise.
    destruct (inner_miss maxsize _ _ _ Hmiss) as (st1 & E & Hc).
    exists st1. rewrite ttl_lru_cache_unfold by exact Hnz.
    rewrite Hraise in E.
    assert (Hcache : Cache.cache st1 = Cache.cache st).
    { unfold Cache.inner in E. rewrite Hmiss, Hraise in E.
      inversion E. reflexivity. }
    split; [exact E|]. split; [exact Hcache|].
    split; [now rewrite Hcache|].
    intros now' Hmiss'. rewrite <- Hcache in Hmiss'.
    rewrite ttl_lru_cache_unfold by exact Hnz.
    now apply inner_miss.
  - intros maxsize ttl now st r Hfind Hdead Hraise.
    destruct (with_ttl_expired maxsize ttl _ _ Hfind Hdead)
      as (st1 & Hres & Hst & Hc & Hheld).
    rewrite Hraise in Hres, Hheld.
    exists st1. split.
    { rewrite <- Hst, <- Hres. apply surjective_pairing. }
    split; [exact Hheld|].
    intros now' Hle.
    assert (Hdead' : Cache.death r < now') by (eapply Qlt_le_trans; eauto).
    destruct (with_ttl_expired maxsize ttl _ _ Hheld Hdead')
      as (st2 & Hres2 & Hst2 & Hc2 & _).
    split; [exact Hres2 | now rewrite Hst2].
Qed.

End CacheFacts.

(** ** Directory lookups of xml_api.py *)

Section FoundFacts.
Variable E : Type.
Variable channels : E -> list Z.

Local Abbreviation found := (XmlApi.found channels).

Local Abbreviation hits := (XmlApi.hits channels).

Lemma found_cons (id : Z) (e : E) (dir : list E) :
  found (e :: dir) id = hits id e ++ found dir id.
Proof. reflexivity. Qed.

Lemma found_app (id : Z) (l1 l2 : list E) :
  found (l1 ++ l2) id = found l1 id ++ found l2 id.
Proof. unfold XmlApi.found. apply flat_map_app. Qed.

Lemma filter_absent (id : Z) (l : list Z) :
  ~ In id l -> filter (Z.eqb id) l = [].
Proof.
  induction l as [|x l IH]; simpl; intros H; [reflexivity|].
  destruct (Z.eqb_spec id x) as [->|_].
  - exfalso. apply H. now left.
  - apply IH. intros Hin. apply H. now right.
Qed.

Lemma filter_member_once (id : Z) (l : list Z) :
  NoDup l -> In id l -> filter (Z.eqb id) l = [id].
Proof.
  induction 1 as [|x l Hnotin Hnodup IH]; simpl; [contradiction|].
  intros [->|Hin].
  - rewrite Z.eqb_refl. f_equal. now apply filter_absent.
  - destruct (Z.eqb_spec id x) as [->|_]; [contradiction|]. now apply IH.
Qed.

Lemma filter_member_some (id : Z) (l : list Z) :
  In id l -> exists rest, filter (Z.eqb id) l = id :: rest.
Proof.
  induction l as [|x l IH]; simpl; [contradiction|].
  intros Hin. destruct (Z.eqb_spec id x) as [->|Hne].
  - now eexists.
  - destruct Hin as [->|Hin]; [contradiction|]. now apply IH.
Qed.

Lemma hits_absent (id : Z) (e : E) : ~ In id (channels e) -> hits id e = [].
Proof. intros H. unfold XmlApi.hits. now rewrite filter_absent. Qed.

Lemma hits_once (id : Z) (e : E) :
  NoDup (channels e) -> In id (channels e) -> hits id e = [e].
Proof. intros Hn Hin. unfold XmlApi.hits. now rewrite filter_member_once. Qed.

Lemma hits_some (id : Z) (e : E) :
  In id (channels e) -> exists rest, hits id e = e :: rest.
Proof.
  intros Hin. unfold XmlApi.hits.
  destruct (filter_member_some _ _ Hin) as [rest ->]. now eexists.
Qed.

Lemma found_absent (id : Z) (dir : list E) :
  (forall e, In e dir -> ~ In id (channels e)) -> found dir id = [].
Proof.
  induction dir as [|e dir IH]; intros H; [reflexivity|].
  rewrite found_cons, hits_absent, IH; auto using in_eq, in_cons.
Qed.

Lemma the_one_two (a b : E) (l1 l2 l3 : list E) :
  XmlApi.the_one (l1 ++ a :: l2 ++ b :: l3) = None.
Proof.
  destruct l1 as [|x [|y l1]]; simpl.
  - destruct l2; reflexivity.
  - reflexivity.
  - reflexivity.
Qed.

(** One entry lists the channel, and lists it once: it is the one found. *)
Lemma found_unique (id : Z) (l1 l2 : list E) (e : E) :
  NoDup (channels e) -> In id (channels e) ->
  (forall e', In e' (l1 ++ l2) -> ~ In id (channels e')) ->
  XmlApi.the_one (found (l1 ++ e :: l2) id) = Some e.
Proof.
  intros Hn Hin Hothers.
  rewrite found_app, found_cons, hits_once by assumption.
  rewrite !found_absent; [reflexivity | |];
    intros e' He'; apply Hothers, in_or_app; auto.
Qed.

(** No entry lists the channel. *)
Lemma found_zero (id : Z) (dir : list E) :
  (forall e, In e dir -> ~ In id (channels e)) ->
  XmlApi.the_one (found dir id) = None.
Proof. intros H. now rewrite found_absent. Qed.

(** Two entries list the channel. *)
Lemma found_ambiguous (id : Z) (l1 l2 l3 : list E) (e1 e2 : E) :
  In id (channels e1) -> In id (channels e2) ->
  XmlApi.the_one (found (l1 ++ e1 :: l2 ++ e2 :: l3) id) = None.
Proof.
  intros H1 H2.
  rewrite found_app, found_cons, found_app, found_cons.
  destruct (hits_some _ _ H1) as [r1 ->].
  destruct (hits_some _ _ H2) as [r2 ->].
  pose proof (the_one_two e1 e2 (found l1 id) (r1 ++ found l2 id)
                          (r2 ++ found l3 id)) as H.
  rewrite <- app_assoc in H. exact H.
Qed.
End FoundFacts.

Section ResolveFacts.
Import XmlApi Spec.
Local Open Scope string_scope.

(** The scan of a directory that the lookups wrap.  With member sets, a
    channel that exactly one entry has among its members resolves to that
    entry's name, or to its address and type in the device directory; a
    channel that no entry or more than one entry has resolves to
    "unknown".  The scan returns a label in every case. *)
Theorem resolve_unique_or_unknown
        (id : Z) (rooms : list Room) (functions : list Function)
        (devices : list Device) :
  (member_sets room_channel rooms ->
   forall e, only_entry room_channel id rooms e ->
             get_room_of_device rooms id = room_name e)
  /\ (no_entry room_channel id rooms \/ several_entries room_channel id rooms ->
      get_room_of_device rooms id = "unknown")
  /\ (member_sets function_channel functions ->
      forall e, only_entry function_channel id functions e ->
                get_function_of_device functions id = function_name e)
  /\ (no_entry function_channel id functions
      \/ several_entries function_channel id functions ->
      get_function_of_device functions id = "unknown")
  /\ (member_sets device_channel devices ->
      forall e, only_entry device_channel id devices e ->
                get_device_address_of_device devices id
                = (address e, device_type e))
  /\ (no_entry device_channel id devices
      \/ several_entries device_channel id devices ->
      get_device_address_of_device devices id = ("unknown", "unknown")).
Proof.
  assert (U : forall (E : Type) (ch : E -> list Z) (dir : list E) (e : E),
             member_sets ch dir -> only_entry ch id dir e ->
             the_one (found ch dir id) = Some e).
  { intros E ch dir e Hsets (l1 & l2 & -> & Hin & Hothers).
    apply found_unique; try assumption.
    apply Hsets, in_or_app. right. now left. }
  assert (N : forall (E : Type) (ch : E -> list Z) (dir : list E),
             no_entry ch id dir \/ several_entries ch id dir ->
             the_one (found ch dir id) = None).
  { intros E ch dir [Hnone | (l1 & e1 & l2 & e2 & l3 & -> & H1 & H2)].
    - now apply found_zero.
    - now apply found_ambiguous. }
  unfold get_room_of_device, get_function_of_device,
    get_device_address_of_device.
  repeat split.
  - intros Hs e He. now rewrite (U _ _ _ _ Hs He).
  - intros H. now rewrite (N _ _ _ H).
  - intros Hs e He. now rewrite (U _ _ _ _ Hs He).
  - intros H. now rewrite (N _ _ _ H).
  - intros Hs e He. now rewrite (U _ _ _ _ Hs He).
  - intros H. now rewrite (N _ _ _ H).
Qed.
End ResolveFacts.

(** ** Classification in xml_api.py *)

Section ClassifyFacts.
Import Py Prom XmlApi Spec.
Local Open Scope string_scope.

Lemma same_readings_one (k : string) (a b : Q) :
  a == b -> same_readings [(k, a)] [(k, b)].
Proof. intros H. repeat constructor; assumption. Qed.

Lemma same_readings_none : same_readings [] [].
Proof. constructor. Qed.

(** C5 (as amended).  A reading alone in a batch leaves what the table
    promises for its raw type and unit: one observation of the declared
    kind with the declared conversion applied, or none; the table being
    the declared one with ENERGY_COUNTER kept, unconverted, in every
    unit other than WATT_HOUR and WATT.  OPERATING_VOLTAGE in VOLTAGE
    leaves none. *)
Theorem classify_follows_amended_table
        (base_labels : list string) (t : DataPointType.t)
        (u : DataPointUnit.t) (raw : dpvalue) :
  same_readings
    (kind_values (classify base_labels (mkDatapoint t u raw)))
    (promised (amended_table t u) raw)
  /\ (declared_table t u <> None -> amended_table t u = declared_table t u)
  /\ (t <> DataPointType.ENERGY_COUNTER ->
      amended_table t u = declared_table t u)
  /\ classify base_labels
       (mkDatapoint DataPointType.OPERATING_VOLTAGE DataPointUnit.VOLTAGE raw)
     = [].
Proof.
  split; [|split; [|split]].
  - destruct t, u; cbn;
      first [ apply same_readings_none
            | apply same_readings_one; cbn; first [reflexivity | ring] ].
  - destruct t, u; cbn; congruence.
  - destruct t, u; cbn; congruence.
  - reflexivity.
Qed.
End ClassifyFacts.

(** ** Batches *)

Section BatchFacts.
Import Py Prom Spec.
Local Open Scope string_scope.

Lemma shape_add_to (key : string) (labels : list string) (value : Q)
      (m : dict MetricFamily) :
  shape (add_to key labels value m) = shape m.
Proof.
  unfold add_to, shape.
  induction m as [|[k f] m IH]; simpl; [reflexivity|].
  destruct (String.eqb key k); simpl; [reflexivity | now rewrite IH].
Qed.

Lemma samples_of_empty (k : string) (m0 : dict MetricFamily) :
  Forall (fun kf => samples (snd kf) = []) m0 -> samples_of k m0 = [].
Proof.
  unfold samples_of.
  induction 1 as [|[k0 f0] m0 Hhd Htl IH]; simpl; [reflexivity|].
  destruct (String.eqb k k0); [exact Hhd | exact IH].
Qed.

(** Adding to a batch adds, at the end, what adding to an empty batch of
    the same shape leaves. *)
Lemma samples_of_add_to (k key : string) (labels : list string) (value : Q)
      (m m0 : dict MetricFamily) :
  shape m = shape m0 ->
  Forall (fun kf => samples (snd kf) = []) m0 ->
  samples_of k (add_to key labels value m)
  = (samples_of k m ++ samples_of k (add_to key labels value m0))%list.
Proof.
  intros Hshape Hempty. revert m Hshape.
  induction Hempty as [|[k2 f2] m0 Hf2 Htl IH]; intros [|[k1 f1] m] Hshape;
    try discriminate; [reflexivity|].
  unfold shape in Hshape. simpl in Hshape, Hf2.
  injection Hshape as Hk Hnames Hrest. subst k2.
  unfold add_to, samples_of in *. simpl.
  destruct (String.eqb key k1) eqn:Ekey; simpl;
    destruct (String.eqb k k1) eqn:Ek; simpl.
  - now rewrite Hf2, Hnames.
  - fold (samples_of k m0). rewrite (samples_of_empty k Htl).
    now rewrite app_nil_r.
  - rewrite Hf2. now rewrite app_nil_r.
  - now apply IH.
Qed.

(** *** Dictionary lookups after an update *)

Lemma dict_get_alter {A} (f : A -> A) (k key : string) (d : dict A) :
  dict_get k (dict_alter f key d)
  = if String.eqb k key then option_map f (dict_get k d) else dict_get k d.
Proof.
  induction d as [|[k1 a] d IH]; simpl.
  - now destruct (String.eqb k key).
  - destruct (String.eqb key k1) eqn:E1; simpl.
    + apply String.eqb_eq in E1. subst k1.
      destruct (String.eqb k key); reflexivity.
    + destruct (String.eqb k k1) eqn:E2; [|exact IH].
      destruct (String.eqb k key) eqn:E3; [|reflexivity].
      apply String.eqb_eq in E2, E3. subst.
      rewrite String.eqb_refl in E1. discriminate.
Qed.

Lemma dict_get_set {A} (k key : string) (a : A) (d : dict A) :
  dict_get k (dict_set key a d)
  = if String.eqb k key then Some a else dict_get k d.
Proof.
  induction d as [|[k1 a1] d IH]; simpl.
  - now destruct (String.eqb k key).
  - destruct (String.eqb key k1) eqn:E1; simpl.
    + apply String.eqb_eq in E1. subst k1.
      destruct (String.eqb k key); reflexivity.
    + destruct (String.eqb k k1) eqn:E2; [|exact IH].
      destruct (String.eqb k key) eqn:E3; [|reflexivity].
      apply String.eqb_eq in E2, E3. subst.
      rewrite String.eqb_refl in E1. discriminate.
Qed.

Lemma samples_of_add_to_held (k key : string) (labels : list string)
      (value : Q) (m : dict MetricFamily) :
  samples_of k (add_to key labels value m)
  = if String.eqb k key then
      match dict_get k m with
      | Some f =>
          (samples f ++ [mkSample (combine (labelnames f) labels) value])%list
      | None => []
      end
    else samples_of k m.
Proof.
  unfold samples_of, add_to. rewrite dict_get_alter.
  destruct (String.eqb k key); [|reflexivity].
  now destruct (dict_get k m).
Qed.

(** A run of additions to one family. *)
Lemma samples_of_add_run {A} (key : string) (labels : A -> list string)
      (value : A -> Q) (l : list A) (m : dict MetricFamily) (f : MetricFamily) :
  dict_get key m = Some f ->
  samples_of key
    (fold_left (fun m a => add_to key (labels a) (value a) m) l m)
  = (samples f
     ++ map (fun a => mkSample (combine (labelnames f) (labels a)) (value a)) l)%list.
Proof.
  revert m f. induction l as [|a l IH]; intros m f Hget; simpl.
  - unfold samples_of. rewrite Hget. now rewrite app_nil_r.
  - assert (Hget' : dict_get key (add_to key (labels a) (value a) m)
                    = Some (add_metric (labels a) (value a) f)).
    { unfold add_to. rewrite dict_get_alter, String.eqb_refl, Hget. reflexivity. }
    rewrite (IH _ _ Hget'). simpl. now rewrite <- app_assoc.
Qed.
End BatchFacts.

(** ** The pass of xml_api.py *)

Section XmlPassFacts.
Import Py Prom XmlApi Spec.
Local Open Scope string_scope.

Lemma new_metrics_empty : Forall (fun kf => samples (snd kf) = []) new_metrics.
Proof. repeat constructor. Qed.

Lemma process_datapoint_shape (base : list string) (dp : Datapoint)
      (m : dict MetricFamily) :
  shape (process_datapoint base dp m) = shape m.
Proof.
  unfold process_datapoint.
  destruct (dp_type dp), (valueunit dp);
    first [reflexivity | apply shape_add_to].
Qed.

Lemma process_datapoint_samples (k : string) (base : list string)
      (dp : Datapoint) (m : dict MetricFamily) :
  shape m = shape new_metrics ->
  samples_of k (process_datapoint base dp m)
  = (samples_of k m ++ samples_of k (process_datapoint base dp new_metrics))%list.
Proof.
  intros Hshape. unfold process_datapoint.
  destruct (dp_type dp), (valueunit dp);
    first [ apply samples_of_add_to; [exact Hshape | exact new_metrics_empty]
          | rewrite (samples_of_empty k new_metrics_empty);
            now rewrite app_nil_r ].
Qed.

(** A loop whose steps each add at the end adds the steps' output in
    the order of the loop. *)
Lemma fold_appends {A} (k : string)
      (step : dict MetricFamily -> A -> dict MetricFamily)
      (out : A -> list Sample) :
  (forall m a, shape m = shape new_metrics ->
               shape (step m a) = shape new_metrics
               /\ samples_of k (step m a) = (samples_of k m ++ out a)%list) ->
  forall l m, shape m = shape new_metrics ->
              shape (fold_left step l m) = shape new_metrics
              /\ samples_of k (fold_left step l m)
                 = (samples_of k m ++ flat_map out l)%list.
Proof.
  intros Hstep l. induction l as [|a l IH]; intros m Hshape; simpl.
  - split; [exact Hshape | now rewrite app_nil_r].
  - destruct (Hstep m a Hshape) as [Hs Ha].
    destruct (IH _ Hs) as [Hs' Ha'].
    split; [exact Hs'|]. rewrite Ha', Ha. now rewrite <- app_assoc.
Qed.

Lemma fold_shape {A} (step : dict MetricFamily -> A -> dict MetricFamily) :
  (forall m a, shape (step m a) = shape m) ->
  forall l m, shape (fold_left step l m) = shape m.
Proof.
  intros Hstep l. induction l as [|a l IH]; intros m; simpl; [reflexivity|].
  now rewrite IH, Hstep.
Qed.

Lemma run_pass_shape (self : HomeMaticCollector) (dirs : Directories)
      (states : list StateDevice) :
  shape (run_pass self dirs states) = shape new_metrics.
Proof.
  unfold run_pass. apply fold_shape. intros m d.
  unfold process_device. apply fold_shape. intros m1 ch.
  unfold process_channel.
  destruct (get_device_address_of_device (devices dirs) (ise_id ch)).
  apply fold_shape. intros m2 dp. apply process_datapoint_shape.
Qed.

Lemma process_channel_fold (self : HomeMaticCollector) (dirs : Directories)
      (device : StateDevice) (channel : Channel) (m : dict MetricFamily) :
  process_channel self dirs device channel m
  = fold_left
      (fun m dp => process_datapoint (base_labels_of self dirs device channel) dp m)
      (datapoint channel) m.
Proof.
  unfold process_channel, base_labels_of.
  now destruct (get_device_address_of_device (devices dirs) (ise_id channel)).
Qed.

Lemma flat_map_map {A B C} (f : B -> list C) (g : A -> B) (l : list A) :
  flat_map f (map g l) = flat_map (fun a => f (g a)) l.
Proof. induction l as [|a l IH]; simpl; [reflexivity | now rewrite IH]. Qed.

Lemma flat_map_flat_map {A B C} (f : B -> list C) (g : A -> list B) (l : list A) :
  flat_map f (flat_map g l) = flat_map (fun a => flat_map f (g a)) l.
Proof.
  induction l as [|a l IH]; simpl; [reflexivity|].
  now rewrite flat_map_app, IH.
Qed.

(** C1 (as amended).  A pass merges nothing: under every key the batch
    holds, in the order of the readings, the observations that each
    reading leaves on its own, so that two readings of one kind with one
    label tuple leave two observations.  In the legacy collector a value
    that is accepted adds one observation at the end of its family,
    whatever the family holds. *)
Theorem run_pass_keeps_every_observation
        (self : HomeMaticCollector) (dirs : Directories)
        (states : list StateDevice) (key : string) :
  samples_of key (run_pass self dirs states)
  = flat_map
      (fun r => samples_of key (process_datapoint (fst r) (snd r) new_metrics))
      (readings self dirs states)
  /\ forall (legacy : Legacy.HomeMaticLegacyCollector)
            (device : Legacy.HomeMaticRPCDevice) (paramType param : string)
            (value : pyval) (m m' : dict MetricFamily),
      is_blank value = false ->
      Legacy.process_single_value legacy device paramType param value m = Ok m' ->
      exists s, samples_of (lower param) m'
                = (samples_of (lower param) m ++ [s])%list
                /\ float value = Ok (sample_value s).
Proof.
  split.
  - unfold run_pass, readings.
    set (out_dp := fun r : list string * Datapoint =>
                     samples_of key (process_datapoint (fst r) (snd r) new_metrics)).
    assert (Hch : forall device m ch,
               shape m = shape new_metrics ->
               shape (process_channel self dirs device ch m) = shape new_metrics
               /\ samples_of key (process_channel self dirs device ch m)
                  = (samples_of key m
                     ++ flat_map out_dp
                          (map (pair (base_labels_of self dirs device ch))
                               (datapoint ch)))%list).
    { intros device m ch Hshape. rewrite process_channel_fold, flat_map_map.
      apply (fold_appends key
               (fun m dp => process_datapoint (base_labels_of self dirs device ch) dp m)
               (fun dp => out_dp (base_labels_of self dirs device ch, dp)));
        [|exact Hshape].
      intros m1 dp Hs. split.
      - now rewrite process_datapoint_shape.
      - now apply process_datapoint_samples. }
    assert (Hdev : forall m device,
               shape m = shape new_metrics ->
               shape (process_device self dirs device m) = shape new_metrics
               /\ samples_of key (process_device self dirs device m)
                  = (samples_of key m
                     ++ flat_map
                          (fun ch => flat_map out_dp
                             (map (pair (base_labels_of self dirs device ch))
                                  (datapoint ch)))
                          (state_channel device))%list).
    { intros m device Hshape. unfold process_device.
      apply (fold_appends key
               (fun m ch => process_channel self dirs device ch m)); [|exact Hshape].
      intros m1 ch Hs. now apply Hch. }
    rewrite flat_map_flat_map.
    destruct (fold_appends key
                (fun m d => process_device self dirs d m)
                (fun device => flat_map
                   (fun ch => flat_map out_dp
                      (map (pair (base_labels_of self dirs device ch))
                           (datapoint ch)))
                   (state_channel device))
                Hdev states new_metrics eq_refl) as [_ H].
    rewrite H, (samples_of_empty key new_metrics_empty). simpl.
    apply flat_map_ext. intros device. now rewrite flat_map_flat_map.
  - intros legacy device paramType param value m m' Hblank.
    unfold Legacy.process_single_value. rewrite Hblank.
    destruct (Legacy.resolve_mapped_name legacy device) as [mapped|]; simpl;
      [|discriminate].
    destruct (float value) as [v|]; simpl; [|discriminate].
    intros H. injection H as <-.
    rewrite samples_of_add_to_held, String.eqb_refl.
    unfold Legacy.ensure_family, dict_mem, samples_of.
    destruct (dict_get (lower param) m) as [f|] eqn:G.
    + rewrite G. eexists. split; reflexivity.
    + rewrite dict_get_set, String.eqb_refl. eexists. split; reflexivity.
Qed.
End XmlPassFacts.

(** ** collectors/legacy.py *)

Section LegacyFacts.
Import Py Prom Legacy Spec.
Local Open Scope string_scope.

Lemma for_each_app {A S} (body : A -> S -> result S) (l1 l2 : list A) (s : S) :
  for_each body (l1 ++ l2)%list s
  = (s1 <- for_each body l1 s ;; for_each body l2 s1).
Proof.
  revert s. induction l1 as [|a l1 IH]; intros s; simpl; [reflexivity|].
  destruct (body a s); simpl; [apply IH | reflexivity].
Qed.

(** What holds before a loop and is kept by its body holds after it. *)
Lemma for_each_invariant {A S} (P : S -> Prop) (body : A -> S -> result S) :
  (forall a s s', P s -> body a s = Ok s' -> P s') ->
  forall l s s', P s -> for_each body l s = Ok s' -> P s'.
Proof.
  intros Hbody l. induction l as [|a l IH]; intros s s' Hs; simpl.
  - intros H. injection H as <-. exact Hs.
  - destruct (body a s) as [s1|] eqn:E; simpl; [|discriminate].
    apply IH. eapply Hbody; eauto.
Qed.

(** A blank value is passed over, whatever its declared type. *)
Lemma process_param_blank (self : HomeMaticLegacyCollector)
      (device : HomeMaticRPCDevice) (paramset : dict pyval)
      (key : string) (desc : ParamDesc) (m : dict MetricFamily) :
  is_blank (param_value paramset key) = true ->
  process_param self device paramset (key, desc) m = Ok m.
Proof.
  intros Hblank. unfold process_param.
  destruct (TYPE desc) as [paramType|]; [|reflexivity].
  destruct (str_in paramType ["FLOAT"; "INTEGER"; "BOOL"]).
  - unfold process_single_value. now rewrite Hblank.
  - destruct (String.eqb paramType "ENUM"); [|reflexivity].
    unfold process_enum. now rewrite Hblank.
Qed.

(** C7 (as amended).  A reading whose value is empty or absent leaves no
    observation and the loop over the parameters goes on as if the
    reading were not there.  A value that is there and is not a number,
    met where a number is asked for, is not passed over: the conversion
    raises and the loop ends with that exception. *)
Theorem blank_value_skipped_non_numeric_raises
        (self : HomeMaticLegacyCollector) (device : HomeMaticRPCDevice)
        (paramset : dict pyval) (l1 l2 : list (string * ParamDesc))
        (key : string) (desc : ParamDesc) (m : dict MetricFamily) :
  (is_blank (param_value paramset key) = true ->
   for_each (process_param self device paramset)
            (l1 ++ (key, desc) :: l2)%list m
   = for_each (process_param self device paramset) (l1 ++ l2)%list m)
  /\ (forall (m1 : dict MetricFamily) (paramType mapped : string) (e : exn),
        for_each (process_param self device paramset) l1 m = Ok m1 ->
        TYPE desc = Some paramType ->
        str_in paramType ["FLOAT"; "INTEGER"; "BOOL"] = true ->
        is_blank (param_value paramset key) = false ->
        resolve_mapped_name self device = Ok mapped ->
        float (param_value paramset key) = Raise e ->
        for_each (process_param self device paramset)
                 (l1 ++ (key, desc) :: l2)%list m
        = Raise e).
Proof.
  split.
  - intros Hblank. rewrite !for_each_app.
    destruct (for_each (process_param self device paramset) l1 m) as [m1|];
      cbn [bind]; [|reflexivity].
    cbn [for_each]. now rewrite process_param_blank.
  - intros m1 paramType mapped e Hl1 Htype Hnum Hblank Hname Hfloat.
    rewrite for_each_app, Hl1. cbn [bind for_each].
    unfold process_param. rewrite Htype, Hnum.
    unfold process_single_value. rewrite Hblank, Hname. cbn [bind].
    now rewrite Hfloat.
Qed.

(** C6 (as amended).  An enumerated reading whose value converts to an
    index into its state list, for a device whose name resolves, adds
    one observation per declared state, in the order of the list, each
    with the state as its last label, valued 1 where the state is the
    one at the index and 0 elsewhere. *)
Theorem process_enum_one_hot
        (self : HomeMaticLegacyCollector) (device : HomeMaticRPCDevice)
        (key : string) (value : pyval) (states : list string)
        (m : dict MetricFamily) (i : Z) (state mapped : string) :
  is_blank value = false ->
  resolve_mapped_name self device = Ok mapped ->
  int value = Ok i ->
  index states i = Ok state ->
  enum_family_ok (lower key ++ "_set") m ->
  exists m',
    process_enum self device key value (Some states) m = Ok m'
    /\ samples_of (lower key ++ "_set") m'
       = (samples_of (lower key ++ "_set") m
          ++ map (fun istate =>
                    mkSample [("ccu", host self); ("device", address device);
                              ("device_type", type device);
                              ("parent_device_type", parent_type device);
                              ("mapped_name", mapped); ("state", istate)]
                             (one_hot state istate))
                 states)%list.
Proof.
  intros Hblank Hname Hint Hidx Hfam.
  unfold process_enum, current_state. rewrite Hblank, Hname, Hint. simpl.
  rewrite Hidx. simpl. eexists. split; [reflexivity|].
  unfold enum_family_ok in Hfam. unfold ensure_family, dict_mem.
  destruct (dict_get (lower key ++ "_set") m) as [f|] eqn:G.
  - rewrite (samples_of_add_run _ _ _ _ _ G).
    unfold samples_of. rewrite G, Hfam. reflexivity.
  - erewrite samples_of_add_run
      by (rewrite dict_get_set, String.eqb_refl; reflexivity).
    unfold samples_of. rewrite G. reflexivity.
Qed.

(** *** The device count *)

Lemma counted_add_to (self : HomeMaticLegacyCollector) (key : string)
      (labels : list string) (value : Q) (m : dict MetricFamily) :
  counted self m -> counted self (add_to key labels value m).
Proof.
  intros (f & rest & Hget & Hs). unfold counted, add_to.
  rewrite dict_get_alter, Hget.
  destruct (String.eqb "devicecount" key); simpl.
  - eexists. eexists. split; [reflexivity|]. simpl. rewrite Hs. reflexivity.
  - eauto.
Qed.

Lemma counted_ensure_family (self : HomeMaticLegacyCollector)
      (gaugename key : string) (labels : list string) (m : dict MetricFamily) :
  counted self m -> counted self (ensure_family gaugename key labels m).
Proof.
  intros (f & rest & Hget & Hs). unfold ensure_family, dict_mem.
  destruct (dict_get gaugename m) eqn:G; [now exists f, rest|].
  exists f, rest. split; [|exact Hs].
  rewrite dict_get_set.
  destruct (String.eqb "devicecount" gaugename) eqn:E; [|exact Hget].
  apply String.eqb_eq in E. subst gaugename. congruence.
Qed.

Lemma counted_add_run {A} (self : HomeMaticLegacyCollector) (key : string)
      (labels : A -> list string) (value : A -> Q) (l : list A)
      (m : dict MetricFamily) :
  counted self m ->
  counted self (fold_left (fun m a => add_to key (labels a) (value a) m) l m).
Proof.
  revert m. induction l as [|a l IH]; intros m Hm; simpl; [exact Hm|].
  apply IH. now apply counted_add_to.
Qed.

Lemma counted_process_param (self : HomeMaticLegacyCollector)
      (device : HomeMaticRPCDevice) (paramset : dict pyval)
      (entry : string * ParamDesc) (m m' : dict MetricFamily) :
  counted self m ->
  process_param self device paramset entry m = Ok m' ->
  counted self m'.
Proof.
  intros Hm. destruct entry as [key desc]. unfold process_param.
  destruct (TYPE desc) as [paramType|];
    [|intros H; injection H as <-; exact Hm].
  destruct (str_in paramType ["FLOAT"; "INTEGER"; "BOOL"]).
  - unfold process_single_value.
    destruct (is_blank (param_value paramset key));
      [intros H; injection H as <-; exact Hm|].
    destruct (resolve_mapped_name self device); cbn [bind]; [|discriminate].
    destruct (float (param_value paramset key)); cbn [bind]; [|discriminate].
    intros H. injection H as <-.
    now apply counted_add_to, counted_ensure_family.
  - destruct (String.eqb paramType "ENUM");
      [|intros H; injection H as <-; exact Hm].
    unfold process_enum.
    destruct (is_blank (param_value paramset key));
      [intros H; injection H as <-; exact Hm|].
    destruct (resolve_mapped_name self device) as [mapped|]; cbn [bind];
      [|discriminate].
    destruct (current_state (VALUE_LIST desc) (param_value paramset key))
      as [state|]; cbn [bind]; [|discriminate].
    intros H. injection H as <-.
    apply counted_add_run
      with (labels := fun istate => [host self; address device; type device;
                                     parent_type device; mapped; istate])
           (value := fun istate =>
                       inject_Z (if String.eqb state istate then 1 else 0)).
    now apply counted_ensure_family.
Qed.

Lemma counted_process_device (self : HomeMaticLegacyCollector)
      (device : HomeMaticRPCDevice) (m m' : dict MetricFamily) :
  counted self m -> process_device self device m = Ok m' -> counted self m'.
Proof.
  intros Hm. unfold process_device.
  destruct (str_in (parent_type device) (supported_device_types self));
    [|intros H; injection H as <-; exact Hm].
  destruct (allow_failed_channel self device) as [allow|]; cbn [bind];
    [|discriminate].
  destruct (str_in "VALUES" (paramsets device));
    [|intros H; injection H as <-; exact Hm].
  destruct (read_paramset self device allow) as [paramset|]; cbn [bind];
    [|discriminate].
  destruct (paramset_description (client self) (address device)) as [desc|];
    cbn [bind]; [|discriminate].
  apply for_each_invariant; [|exact Hm].
  intros entry s s' Hs. now apply counted_process_param.
Qed.

Lemma shape_keys (m m0 : dict MetricFamily) :
  shape m = shape m0 -> map fst m = map fst m0.
Proof.
  unfold shape. intros H.
  apply (f_equal (map fst)) in H. rewrite !map_map in H. exact H.
Qed.

Lemma dict_get_absent {A} (k : string) (d : dict A) :
  ~ In k (map fst d) -> dict_get k d = None.
Proof.
  induction d as [|[k1 a] d IH]; simpl; intros H; [reflexivity|].
  destruct (String.eqb_spec k k1) as [->|_].
  - exfalso. apply H. now left.
  - apply IH. intros Hin. apply H. now right.
Qed.

(** C8 (as amended).  A pass of the legacy collector that completes
    holds the device count, the number of all devices of the snapshot,
    at the head of the family under "devicecount", whatever the
    dictionary held before the pass.  The state-listing collector has
    no such family: the keys of its batch are the nine it starts
    with. *)
Theorem device_count_in_legacy_pass_only :
  (forall (self : HomeMaticLegacyCollector) (m m' : dict MetricFamily),
      generate_metrics self m = Ok m' -> counted self m')
  /\ (forall (self : XmlApi.HomeMaticCollector) (dirs : XmlApi.Directories)
             (states : list XmlApi.StateDevice),
         map fst (XmlApi.run_pass self dirs states)
         = ["rssi"; "temperature"; "humidity"; "battery"; "level"; "energy";
            "current"; "voltage"; "power"]
         /\ dict_get "devicecount" (XmlApi.run_pass self dirs states) = None).
Proof.
  split.
  - intros self m m'. unfold generate_metrics.
    apply for_each_invariant.
    + intros device s s' Hs. now apply counted_process_device.
    + unfold counted, add_to.
      rewrite dict_get_alter, String.eqb_refl, dict_get_set, String.eqb_refl.
      simpl. eexists. eexists. split; reflexivity.
  - intros self dirs states.
    pose proof (shape_keys _ _ (run_pass_shape self dirs states)) as Hkeys.
    split; [exact Hkeys|].
    apply dict_get_absent. rewrite Hkeys. simpl.
    intros H. repeat (destruct H as [H|H]; [discriminate|]). exact H.
Qed.

End LegacyFacts.

(** ** Construction of the collectors *)

Section InitFacts.
Local Open Scope string_scope.

(** C9.  With a configuration file the mapping it supplies is stored in
    the collector, and name resolution then raises AttributeError for
    every device: [get_mappings] returns nothing, the stored mapping is
    never read, and no configured name is ever returned. *)
Theorem configured_mapping_is_never_read
        (SUPPORTED_DEVICE_TYPES : list string)
        (CHANNELS_WITH_ERRORS_ALLOWED : Py.dict (list Z))
        (host : string) (client : Legacy.PyCCU3Legacy)
        (config : Legacy.Config) (device : Legacy.HomeMaticRPCDevice) :
  let self := Legacy.init SUPPORTED_DEVICE_TYPES CHANNELS_WITH_ERRORS_ALLOWED
                          host client (Some config) in
  Legacy.mapped_names self = Legacy.get_or (Legacy.device_mapping config) []
  /\ Legacy.get_mappings self = None
  /\ Legacy.resolve_mapped_name self device = Raise AttributeError.
Proof. repeat split. Qed.

(** C10.  Whatever the two members of [auth] are, the state-listing
    collector is not constructed: the assertion on the length of the
    pair fails.  The tuple that [main] builds is always such a pair. *)
Theorem init_rejects_every_pair
        (host : string) (user session : option string) (verify : bool) :
  XmlApi.init host [user; session] verify
  = Raise (AssertionError "Please provide a valid session_id")
  /\ forall ccu_user ccu_pass ccu_session_id : option string,
      XmlApi.init host (Exporter.auth ccu_user ccu_pass ccu_session_id) verify
      = Raise (AssertionError "Please provide a valid session_id").
Proof.
  split; [reflexivity|].
  intros ccu_user ccu_pass ccu_session_id. unfold Exporter.auth.
  destruct (Exporter.truthy ccu_user && Exporter.truthy ccu_pass);
    [reflexivity|].
  destruct (Exporter.truthy ccu_session_id); reflexivity.
Qed.
End InitFacts.

(** ** The properties on concrete inputs *)

Section Checks.
Import Py Prom Spec Scenario.
Local Open Scope string_scope.

(** *** cache.py *)

(** C2, as stated, fails: a value computed at time 59 under a ttl of 60
    is computed again at time 60, one time unit later. *)
Lemma ttl_lru_cache_recomputes_before_ttl :
  Cache.ttl_lru_cache Z.eqb counting 60 128 59 7%Z (Cache.empty Z nat)
  = (Ok 0%nat, after_first_call)
  /\ 60 - 59 < 60
  /\ fst (Cache.ttl_lru_cache Z.eqb counting 60 128 60 7%Z after_first_call)
     = Ok 1%nat
  /\ Cache.calls
       (snd (Cache.ttl_lru_cache Z.eqb counting 60 128 60 7%Z after_first_call))
     = S (Cache.calls after_first_call).
Proof. repeat split. Qed.

Lemma timed_cache_reuse_and_refresh_witness :
  (exists st2,
      Cache.ttl_lru_cache Z.eqb counting 60 128 30 7%Z after_first_call
      = (Ok 0%nat, st2)
      /\ Cache.calls st2 = Cache.calls after_first_call)
  /\ (exists st2,
         Cache.ttl_lru_cache Z.eqb counting 60 128 60 7%Z after_first_call
         = (counting (Cache.calls after_first_call) 7%Z, st2)
         /\ Cache.calls st2 = S (Cache.calls after_first_call))
  /\ (exists st2,
         Cache.lru_cache_with_ttl Z.eqb counting 128 60 60 7%Z after_first_call'
         = (Ok 0%nat, st2)
         /\ Cache.calls' st2 = Cache.calls' after_first_call').
Proof.
  assert (Httl : (0 < 60)%Z) by reflexivity.
  assert (Hmax : (0 < 128)%nat) by (apply Nat.ltb_lt; reflexivity).
  assert (Hupto : Cache.windows_upto (Cache.window 60 59) (Cache.empty Z nat))
    by constructor.
  assert (Hpos : 0 <= 60) by discriminate.
  assert (Hcomputed : Cache.calls' after_first_call'
                      <> Cache.calls' (Cache.empty' Z nat)) by discriminate.
  assert (Hnear : 60 - 59 <= 60) by discriminate.
  destruct (@timed_cache_reuse_and_refresh
              Z nat Z.eqb Z.eqb_refl counting 7%Z 0%nat) as [Hwin Hdeath].
  destruct (Hwin 60%Z 128%nat 59 (Cache.empty Z nat) after_first_call
                 Httl Hmax Hupto eq_refl)
    as (Hsame & Hlater & _).
  destruct (Hdeath 128%nat 60 59 (Cache.empty' Z nat) after_first_call'
                   Hmax Hpos eq_refl Hcomputed)
    as (Hfresh & _).
  split; [|split].
  - destruct (Hsame 30 eq_refl) as [_ H]. exact H.
  - destruct (Hlater 60 eq_refl) as (st2 & H1 & H2 & _).
    exists st2. split; assumption.
  - exact (Hfresh 60 Hnear).
Defined.

Lemma failed_refresh_keeps_stale_value_witness :
  (exists st1,
      Cache.ttl_lru_cache Z.eqb flaky 60 128 61 7%Z stale = (Raise Fault, st1)
      /\ Cache.cache st1 = Cache.cache stale)
  /\ (exists st1,
         Cache.lru_cache_with_ttl Z.eqb flaky 128 60 61 7%Z stale'
         = (Raise Fault, st1)
         /\ lru_find Z.eqb 7%Z (Cache.cache' st1)
            = Some (Cache.mkResult 0%nat 60)).
Proof.
  destruct (@failed_refresh_keeps_stale_value
              Z nat Z.eqb Z.eqb_refl flaky 7%Z Fault) as [Hwin Hdeath].
  assert (Hnz : 60%Z <> 0%Z) by discriminate.
  split.
  - destruct (Hwin 60%Z 128%nat 61 stale 0%Z 0%nat Hnz eq_refl eq_refl eq_refl)
      as (st1 & H1 & H2 & _).
    exists st1. split; assumption.
  - destruct (Hdeath 128%nat 60 61 stale' (Cache.mkResult 0%nat 60)
                     eq_refl eq_refl eq_refl)
      as (st1 & H1 & H2 & _).
    exists st1. split; assumption.
Defined.

(** *** Directory lookups *)

Lemma resolve_unique_or_unknown_witness :
  XmlApi.get_room_of_device [kitchen; hall; pantry] 7 = "Kitchen"
  /\ XmlApi.get_room_of_device [kitchen; hall; pantry] 8 = "unknown"
  /\ XmlApi.get_room_of_device [kitchen; hall; pantry] 10 = "unknown"
  /\ XmlApi.get_device_address_of_device [thermostat] 7
     = ("000A1B2C3D4E5F", "HmIP-eTRV-2").
Proof.
  destruct (resolve_unique_or_unknown 7 [kitchen; hall; pantry] [heating]
                                      [thermostat])
    as (Hroom & _ & _ & _ & Hdev & _).
  destruct (resolve_unique_or_unknown 8 [kitchen; hall; pantry] [heating]
                                      [thermostat])
    as (_ & Htwo & _).
  destruct (resolve_unique_or_unknown 10 [kitchen; hall; pantry] [heating]
                                      [thermostat])
    as (_ & Hzero & _).
  split; [|split; [|split]].
  - apply (fun sets only => Hroom sets kitchen only).
    + intros e [<-|[<-|[<-|[]]]]; repeat constructor;
        simpl; intuition discriminate.
    + exists [], [hall; pantry]. split; [reflexivity|]. split; [now left|].
      intros e' [<-|[<-|[]]]; simpl; intuition discriminate.
  - apply Htwo. right. exists [], kitchen, [hall], pantry, [].
    split; [reflexivity|]. split; simpl; auto.
  - apply Hzero. left.
    intros e [<-|[<-|[<-|[]]]]; simpl; intuition discriminate.
  - apply (fun sets only => Hdev sets thermostat only).
    + intros e [<-|[]]. repeat constructor. simpl. intuition.
    + exists [], []. split; [reflexivity|]. split; [now left|].
      intros e' [].
Defined.

(** The lookup counts listings, not entries: an entry that lists the
    channel twice is found twice, which is why the members have to be a
    set. *)
Example channel_listed_twice :
  XmlApi.get_room_of_device [XmlApi.mkRoom "Kitchen" [7%Z; 7%Z]] 7 = "unknown".
Proof. reflexivity. Qed.

(** *** Classification *)

(** C5, as stated, fails: ENERGY_COUNTER in a unit the table does not
    list still leaves an observation. *)
Lemma energy_counter_kept_in_other_units :
  declared_table XmlApi.DataPointType.ENERGY_COUNTER XmlApi.DataPointUnit.UNKNOWN
  = None
  /\ kind_values
       (XmlApi.classify
          ["ccu.local"; "Meter"; "unknown"; "unknown"; "Meter:1"; "unknown";
           "unknown"]
          (XmlApi.mkDatapoint XmlApi.DataPointType.ENERGY_COUNTER
                              XmlApi.DataPointUnit.UNKNOWN (XmlApi.Number 5)))
     = [("energy", 5)].
Proof. split; reflexivity. Qed.

Lemma classify_follows_amended_table_witness :
  same_readings
    (kind_values
       (XmlApi.classify []
          (XmlApi.mkDatapoint XmlApi.DataPointType.HUMIDITY
                              XmlApi.DataPointUnit.DECIMAL_PERCENT
                              (XmlApi.Number 45))))
    [("humidity", 45 / 100)]
  /\ amended_table XmlApi.DataPointType.HUMIDITY
                   XmlApi.DataPointUnit.DECIMAL_PERCENT
     = declared_table XmlApi.DataPointType.HUMIDITY
                      XmlApi.DataPointUnit.DECIMAL_PERCENT.
Proof.
  destruct (classify_follows_amended_table
              [] XmlApi.DataPointType.HUMIDITY
              XmlApi.DataPointUnit.DECIMAL_PERCENT (XmlApi.Number 45))
    as (Hobs & Hrow & _).
  split; [exact Hobs|]. apply Hrow. discriminate.
Defined.

(** The scenarios of the specification. *)
Example humidity_scenario :
  same_readings
    (kind_values
       (XmlApi.classify []
          (XmlApi.mkDatapoint XmlApi.DataPointType.HUMIDITY
                              XmlApi.DataPointUnit.DECIMAL_PERCENT
                              (XmlApi.Number 45))))
    [("humidity", 0.45)].
Proof. apply same_readings_one. reflexivity. Qed.

Example energy_scenario :
  same_readings
    (kind_values
       (XmlApi.classify []
          (XmlApi.mkDatapoint XmlApi.DataPointType.ENERGY_COUNTER
                              XmlApi.DataPointUnit.WATT_HOUR
                              (XmlApi.Number 2))))
    [("energy", 7200)].
Proof. apply same_readings_one. reflexivity. Qed.

Example current_scenario :
  same_readings
    (kind_values
       (XmlApi.classify []
          (XmlApi.mkDatapoint XmlApi.DataPointType.CURRENT
                              XmlApi.DataPointUnit.MILLI_AMPERE
                              (XmlApi.Number 500))))
    [("current", 0.5)].
Proof. apply same_readings_one. reflexivity. Qed.

Example operating_voltage_scenario :
  XmlApi.classify []
    (XmlApi.mkDatapoint XmlApi.DataPointType.OPERATING_VOLTAGE
                        XmlApi.DataPointUnit.VOLTAGE (XmlApi.Number 230))
  = [].
Proof. reflexivity. Qed.

(** *** The configured names *)

(** C9 at a configuration file that names the channel of the window
    contact: the name is stored and the lookup raises. *)
Example configured_name_scenario :
  Legacy.mapped_names
    (Legacy.init supported [] "ccu.local" (controller [] []) (Some config))
  = [("000A1B2C3D4E5F:1", "Front window")]
  /\ Legacy.resolve_mapped_name
       (Legacy.init supported [] "ccu.local" (controller [] []) (Some config))
       window_contact
     = Raise AttributeError.
Proof. split; reflexivity. Qed.

(** *** Batches *)

(** C1, as stated, fails: two readings of one channel that both count
    as its temperature leave two observations with one label tuple. *)
Lemma two_readings_one_label_tuple_two_observations :
  samples_of "temperature"
             (XmlApi.run_pass xml_collector directories two_temperatures)
  = [mkSample thermostat_labels 20; mkSample thermostat_labels 21].
Proof. reflexivity. Qed.

Lemma run_pass_keeps_every_observation_witness :
  exists s,
    Legacy.process_single_value
      (legacy_collector [] temperature_desc) window_contact
      "FLOAT" "ACTUAL_TEMPERATURE" (PFloat 21.5) []
    = Ok [("actual_temperature",
           add_metric
             ["ccu.local"; "000A1B2C3D4E5F:1"; "SHUTTER_CONTACT"; "HmIP-SWDO";
              "Window"] 21.5
             (GaugeMetricFamily "homematic_actual_temperature"
                                "Metrics for ACTUAL_TEMPERATURE"
                                Legacy.single_labelnames EmptyString))]
    /\ samples_of (lower "ACTUAL_TEMPERATURE")
         [("actual_temperature",
           add_metric
             ["ccu.local"; "000A1B2C3D4E5F:1"; "SHUTTER_CONTACT"; "HmIP-SWDO";
              "Window"] 21.5
             (GaugeMetricFamily "homematic_actual_temperature"
                                "Metrics for ACTUAL_TEMPERATURE"
                                Legacy.single_labelnames EmptyString))]
       = (samples_of (lower "ACTUAL_TEMPERATURE") [] ++ [s])%list
    /\ float (PFloat 21.5) = Ok (sample_value s).
Proof.
  destruct (run_pass_keeps_every_observation
              xml_collector directories two_temperatures "temperature")
    as [_ Hlegacy].
  assert (Hblank : is_blank (PFloat 21.5) = false) by reflexivity.
  destruct (Hlegacy (legacy_collector [] temperature_desc) window_contact
                    "FLOAT" "ACTUAL_TEMPERATURE" (PFloat 21.5) [] _
                    Hblank eq_refl) as (s & Hs & Hv).
  exists s. split; [reflexivity|]. split; assumption.
Defined.

(** *** Enumerated readings *)

(** C6, as stated, fails: the scenario of the specification, the value
    being the name of the state, ends in ValueError, and an index past
    the end of the state list ends in IndexError. *)
Lemma enum_value_must_be_an_index :
  Legacy.process_enum (legacy_collector [] state_desc) window_contact
                      "STATE" (PStr "CLOSED") (Some ["OPEN"; "CLOSED"]) []
  = Raise ValueError
  /\ Legacy.process_enum (legacy_collector [] state_desc) window_contact
                         "STATE" (PInt 2) (Some ["OPEN"; "CLOSED"]) []
     = Raise IndexError.
Proof. split; reflexivity. Qed.

Lemma process_enum_one_hot_witness :
  exists m',
    Legacy.process_enum (legacy_collector [] state_desc) window_contact
                        "STATE" (PInt 1) (Some ["OPEN"; "CLOSED"]) []
    = Ok m'
    /\ samples_of "state_set" m'
       = [mkSample (window_labels "OPEN") (one_hot "CLOSED" "OPEN");
          mkSample (window_labels "CLOSED") (one_hot "CLOSED" "CLOSED")].
Proof.
  assert (Hblank : is_blank (PInt 1) = false) by reflexivity.
  assert (Hfam : enum_family_ok (lower "STATE" ++ "_set") []) by exact I.
  exact (@process_enum_one_hot
           (legacy_collector [] state_desc) window_contact "STATE" (PInt 1)
           ["OPEN"; "CLOSED"] [] 1%Z "CLOSED" "Window"
           Hblank eq_refl eq_refl eq_refl Hfam).
Defined.

(** *** Malformed values *)

(** C7, as stated, fails: a value that is not a number ends the pass
    with ValueError, and the reading after it is not reached. *)
Lemma non_numeric_value_aborts_pass :
  Legacy.generate_metrics
    (legacy_collector [("ACTUAL_TEMPERATURE", PStr "abc"); ("HUMIDITY", PInt 40)]
                      temperature_desc) []
  = Raise ValueError.
Proof. reflexivity. Qed.

Lemma blank_value_skipped_non_numeric_raises_witness :
  (for_each (Legacy.process_param
               (legacy_collector [("ACTUAL_TEMPERATURE", PStr EmptyString); ("HUMIDITY", PInt 40)]
                                 temperature_desc)
               window_contact
               [("ACTUAL_TEMPERATURE", PStr EmptyString); ("HUMIDITY", PInt 40)])
            temperature_desc []
   = for_each (Legacy.process_param
                 (legacy_collector [("ACTUAL_TEMPERATURE", PStr EmptyString); ("HUMIDITY", PInt 40)]
                                   temperature_desc)
                 window_contact
                 [("ACTUAL_TEMPERATURE", PStr EmptyString); ("HUMIDITY", PInt 40)])
              [("HUMIDITY", Legacy.mkParamDesc (Some "INTEGER") None)] [])
  /\ for_each (Legacy.process_param
                 (legacy_collector [("ACTUAL_TEMPERATURE", PStr "abc"); ("HUMIDITY", PInt 40)]
                                   temperature_desc)
                 window_contact
                 [("ACTUAL_TEMPERATURE", PStr "abc"); ("HUMIDITY", PInt 40)])
              temperature_desc []
     = Raise ValueError.
Proof.
  split.
  - destruct (blank_value_skipped_non_numeric_raises
                (legacy_collector [("ACTUAL_TEMPERATURE", PStr EmptyString); ("HUMIDITY", PInt 40)]
                                  temperature_desc)
                window_contact
                [("ACTUAL_TEMPERATURE", PStr EmptyString); ("HUMIDITY", PInt 40)]
                [] [("HUMIDITY", Legacy.mkParamDesc (Some "INTEGER") None)]
                "ACTUAL_TEMPERATURE" (Legacy.mkParamDesc (Some "FLOAT") None) [])
      as [Hskip _].
    exact (Hskip eq_refl).
  - destruct (blank_value_skipped_non_numeric_raises
                (legacy_collector [("ACTUAL_TEMPERATURE", PStr "abc"); ("HUMIDITY", PInt 40)]
                                  temperature_desc)
                window_contact
                [("ACTUAL_TEMPERATURE", PStr "abc"); ("HUMIDITY", PInt 40)]
                [] [("HUMIDITY", Legacy.mkParamDesc (Some "INTEGER") None)]
                "ACTUAL_TEMPERATURE" (Legacy.mkParamDesc (Some "FLOAT") None) [])
      as [_ Hraise].
    exact (Hraise [] "FLOAT" "Window" ValueError
                  eq_refl eq_refl eq_refl eq_refl eq_refl eq_refl).
Defined.

(** *** The device count *)

(** C8, as stated, fails: the state-listing collector, given a snapshot
    of one device, returns a batch without any observation, the device
    count included. *)
Lemma state_listing_pass_has_no_device_count :
  List.length silent_device = 1%nat
  /\ observations (XmlApi.run_pass xml_collector directories silent_device) = []
  /\ map name (XmlApi.collect xml_collector directories silent_device)
     = ["homematic_rssi_dbm"; "homematic_temperature_celsius";
        "homematic_humidity_ratio"; "homematic_battery_volts";
        "homematic_level_ratio"; "homematic_energy_joules";
        "homematic_circuit_amperes"; "homematic_circuit_volts";
        "homematic_circuit_joules_per_second"].
Proof. repeat split. Qed.

Lemma device_count_in_legacy_pass_only_witness :
  counted (legacy_collector [("STATE", PInt 1)] state_desc)
          [("devicecount",
            add_metric ["ccu.local"] 1
              (GaugeMetricFamily "homematic_devicecount"
                 "Number of processed/supported devices" ["ccu"] EmptyString));
           ("state_set",
            add_metric
              ["ccu.local"; "000A1B2C3D4E5F:1"; "SHUTTER_CONTACT"; "HmIP-SWDO";
               "Window"; "CLOSED"] 1
              (add_metric
                 ["ccu.local"; "000A1B2C3D4E5F:1"; "SHUTTER_CONTACT";
                  "HmIP-SWDO"; "Window"; "OPEN"] 0
                 (GaugeMetricFamily "homematic_state_set" "Metrics for STATE"
                    (Legacy.single_labelnames ++ ["state"])%list EmptyString)))].
Proof.
  destruct device_count_in_legacy_pass_only as [Hlegacy _].
  apply (Hlegacy (legacy_collector [("STATE", PInt 1)] state_desc) []).
  reflexivity.
Defined.
End Checks.

(** * Further properties of the code *)

(** ** The size of the caches and what survives in them *)

Section CacheSizeFacts.
Variables K V : Type.
Variable K_eqb : K -> K -> bool.
Hypothesis K_eqb_eq : forall a b, K_eqb a b = true <-> a = b.
Variable func : nat -> K -> result V.

Local Abbreviation state := (Cache.state K V).
Local Abbreviation ttl_lru_cache := (Cache.ttl_lru_cache K_eqb func).
Local Abbreviation lru_cache_with_ttl := (Cache.lru_cache_with_ttl K_eqb func).
Local Abbreviation wkey_eqb := (Cache.wkey_eqb K_eqb).
Local Abbreviation call_all := (Runs.call_all K_eqb func).

Lemma lru_remove_length {Key Val} (eqb : Key -> Key -> bool) (k : Key)
      (c : list (Key * Val)) :
  (List.length (lru_remove eqb k c) <= List.length c)%nat
  /\ (forall v, lru_find eqb k c = Some v ->
                S (List.length (lru_remove eqb k c)) = List.length c).
Proof.
  induction c as [|[k' v'] c [IHle IHeq]]; simpl.
  - split; [lia | discriminate].
  - destruct (eqb k k'); simpl.
    + split; [lia | reflexivity].
    + split; [lia|]. intros v Hv. now rewrite (IHeq v Hv).
Qed.

Lemma lru_update_length {Key Val} (eqb : Key -> Key -> bool) (k : Key) (v : Val)
      (c : list (Key * Val)) :
  List.length (lru_update eqb k v c) = List.length c.
Proof.
  induction c as [|[k' v'] c IH]; simpl; [reflexivity|].
  destruct (eqb k k'); simpl; [reflexivity | now rewrite IH].
Qed.

Lemma lru_insert_length {Key Val} (maxsize : nat) (k : Key) (v : Val)
      (c : list (Key * Val)) :
  (List.length (lru_insert maxsize k v c) <= maxsize)%nat.
Proof. unfold lru_insert. rewrite length_firstn. apply Nat.le_min_l. Qed.

(** X1.  Neither cache ever grows beyond [maxsize] entries: a call made
    on a cache within the bound leaves a cache within the bound, whether
    it hits, computes, refreshes or raises.  With a [maxsize] of 0 the
    cache of [ttl_lru_cache] therefore stays empty and every call calls
    the function. *)
Theorem caches_stay_within_maxsize (maxsize : nat) (now : Q) (k : K) :
  (forall (ttl : Z) (st : state),
      (List.length (Cache.cache st) <= maxsize)%nat ->
      (List.length (Cache.cache (snd (ttl_lru_cache ttl maxsize now k st)))
       <= maxsize)%nat)
  /\ (forall (ttl : Q) (st : Cache.state' K V),
         (List.length (Cache.cache' st) <= maxsize)%nat ->
         (List.length
            (Cache.cache' (snd (lru_cache_with_ttl maxsize ttl now k st)))
          <= maxsize)%nat)
  /\ (forall (ttl : Z) (st : state),
         maxsize = 0%nat -> ttl <> 0%Z ->
         (List.length (Cache.cache st) <= maxsize)%nat ->
         fst (ttl_lru_cache ttl maxsize now k st) = func (Cache.calls st) k
         /\ Cache.calls (snd (ttl_lru_cache ttl maxsize now k st))
            = S (Cache.calls st)).
Proof.
  assert (Hinner : forall (w : Z) (st : state),
             (List.length (Cache.cache st) <= maxsize)%nat ->
             (List.length (Cache.cache (snd (Cache.inner K_eqb func maxsize w k st)))
              <= maxsize)%nat).
  { intros w st Hle. unfold Cache.inner.
    destruct (lru_find wkey_eqb (w, k) (Cache.cache st)) as [v|] eqn:E.
    - cbn [snd Cache.cache]. unfold lru_touch. cbn [List.length].
      destruct (lru_remove_length wkey_eqb (w, k) (Cache.cache st)) as [_ Heq].
      rewrite (Heq v E). exact Hle.
    - destruct (func (Cache.calls st) k); cbn [snd Cache.cache];
        [apply lru_insert_length | exact Hle]. }
  split; [|split].
  - intros ttl st Hle. unfold Cache.ttl_lru_cache.
    destruct (Z.eqb ttl 0); [exact Hle | now apply Hinner].
  - intros ttl st Hle. unfold Cache.lru_cache_with_ttl, Cache.cached_func.
    destruct (lru_find K_eqb k (Cache.cache' st)) as [r|] eqn:E.
    + assert (Htouch : (List.length (lru_touch K_eqb k r (Cache.cache' st))
                        <= maxsize)%nat).
      { unfold lru_touch. cbn [List.length].
        destruct (lru_remove_length K_eqb k (Cache.cache' st)) as [_ Heq].
        rewrite (Heq r E). exact Hle. }
      destruct (Cache.Qltb (Cache.death r) now); [|exact Htouch].
      cbn [Cache.cache' Cache.calls'].
      destruct (func (Cache.calls' st) k); cbn [snd Cache.cache'];
        [now rewrite lru_update_length | exact Htouch].
    + destruct (func (Cache.calls' st) k) as [v|]; [|exact Hle].
      destruct (Cache.Qltb (Cache.death (Cache.mkResult v (now + ttl))) now);
        [|apply lru_insert_length].
      cbn [Cache.cache' Cache.calls'].
      destruct (func (S (Cache.calls' st)) k); cbn [snd Cache.cache'];
        [rewrite lru_update_length|]; apply lru_insert_length.
  - intros ttl st -> Hnz Hle.
    unfold Cache.ttl_lru_cache.
    destruct (Z.eqb_spec ttl 0) as [|_]; [contradiction|].
    destruct (Cache.cache st) as [|e c] eqn:Ec; [|simpl in Hle; lia].
    unfold Cache.inner. rewrite Ec. cbn [lru_find].
    destruct (func (Cache.calls st) k); split; reflexivity.
Qed.

(** *** Entries near the front *)

Section Front.
Variables Key Val : Type.
Variable eqb : Key -> Key -> bool.
Hypothesis eqb_eq : forall a b, eqb a b = true <-> a = b.

Lemma eqb_neq (a b : Key) : a <> b -> eqb a b = false.
Proof.
  intros H. destruct (eqb a b) eqn:E; [|reflexivity].
  apply eqb_eq in E. contradiction.
Qed.

Lemma lru_find_firstn_S (k : Key) (v : Val) (n : nat) (c : list (Key * Val)) :
  lru_find eqb k (firstn n c) = Some v ->
  lru_find eqb k (firstn (S n) c) = Some v.
Proof.
  revert c. induction n as [|n IH]; intros c; [discriminate|].
  destruct c as [|[k' v'] c]; [discriminate|].
  change (firstn (S (S n)) ((k', v') :: c)) with ((k', v') :: firstn (S n) c).
  change (firstn (S n) ((k', v') :: c)) with ((k', v') :: firstn n c).
  cbn [lru_find]. destruct (eqb k k'); [trivial | apply IH].
Qed.

Lemma lru_find_firstn_all (k : Key) (v : Val) (n : nat) (c : list (Key * Val)) :
  lru_find eqb k (firstn n c) = Some v -> lru_find eqb k c = Some v.
Proof.
  revert c. induction n as [|n IH]; intros c; [discriminate|].
  destruct c as [|[k' v'] c]; [discriminate|].
  cbn [firstn lru_find]. destruct (eqb k k'); [trivial | apply IH].
Qed.

(** Taking another key out does not push an entry back. *)
Lemma lru_find_remove_other (k k2 : Key) (v : Val) (n : nat)
      (c : list (Key * Val)) :
  k <> k2 ->
  lru_find eqb k (firstn n c) = Some v ->
  lru_find eqb k (firstn n (lru_remove eqb k2 c)) = Some v.
Proof.
  intros Hne. revert n. induction c as [|[k' v'] c IH]; intros n Hfind.
  - exact Hfind.
  - destruct n as [|n]; [discriminate|].
    cbn [lru_remove]. destruct (eqb k2 k') eqn:E2.
    + apply eqb_eq in E2. subst k'.
      cbn [firstn lru_find] in Hfind. rewrite (eqb_neq Hne) in Hfind.
      now apply lru_find_firstn_S.
    + cbn [firstn lru_find] in *. destruct (eqb k k'); [trivial | now apply IH].
Qed.
End Front.

Lemma wkey_eqb_eq (a b : Z * K) : wkey_eqb a b = true <-> a = b.
Proof.
  unfold Cache.wkey_eqb. destruct a as [w1 k1], b as [w2 k2]. cbn [fst snd].
  rewrite andb_true_iff, Z.eqb_eq, K_eqb_eq.
  split; [intros [-> ->]; reflexivity | intros H; inversion H; auto].
Qed.

(** A call for another key pushes an entry back by at most one place,
    and not out of the cache while there is room behind it. *)
Lemma inner_pushes_back_by_one (maxsize : nat) (w w2 : Z) (k k2 : K) (v : V)
      (n : nat) (st : state) :
  (w, k) <> (w2, k2) ->
  (S n < maxsize)%nat ->
  lru_find wkey_eqb (w, k) (firstn (S n) (Cache.cache st)) = Some v ->
  lru_find wkey_eqb (w, k)
           (firstn (S (S n))
                   (Cache.cache (snd (Cache.inner K_eqb func maxsize w2 k2 st))))
  = Some v.
Proof.
  intros Hne Hroom Hfind. unfold Cache.inner.
  assert (Hskip : wkey_eqb (w, k) (w2, k2) = false)
    by (apply (@eqb_neq _ _ wkey_eqb_eq); exact Hne).
  destruct (lru_find wkey_eqb (w2, k2) (Cache.cache st)) as [v2|].
  - cbn [snd Cache.cache]. unfold lru_touch.
    change (firstn (S (S n)) ((w2, k2, v2) :: lru_remove wkey_eqb (w2, k2) (Cache.cache st)))
      with ((w2, k2, v2) :: firstn (S n) (lru_remove wkey_eqb (w2, k2) (Cache.cache st))).
    cbn [lru_find]. rewrite Hskip.
    now apply (@lru_find_remove_other _ _ _ wkey_eqb_eq).
  - destruct (func (Cache.calls st) k2) as [v2|]; cbn [snd Cache.cache].
    + unfold lru_insert. rewrite firstn_firstn.
      replace (Nat.min (S (S n)) maxsize) with (S (S n)) by lia.
      change (firstn (S (S n)) ((w2, k2, v2) :: Cache.cache st))
        with ((w2, k2, v2) :: firstn (S n) (Cache.cache st)).
      cbn [lru_find]. now rewrite Hskip.
    + now apply lru_find_firstn_S.
Qed.

Lemma call_all_pushes_back (ttl : Z) (maxsize : nat) (w : Z) (k : K) (v : V)
      (others : list (Q * K)) :
  ttl <> 0%Z ->
  (forall c, In c others -> (Cache.window ttl (fst c), snd c) <> (w, k)) ->
  forall (n : nat) (st : state),
    (S n + List.length others <= maxsize)%nat ->
    lru_find wkey_eqb (w, k) (firstn (S n) (Cache.cache st)) = Some v ->
    lru_find wkey_eqb (w, k)
             (firstn (S n + List.length others)
                     (Cache.cache (call_all ttl maxsize others st)))
    = Some v.
Proof.
  intros Hnz. induction others as [|[now2 k2] others IH]; intros Hother n st Hroom Hfind.
  - simpl. now rewrite Nat.add_0_r.
  - cbn [List.length] in *. unfold Runs.call_all. cbn [fold_left fst snd].
    fold (call_all ttl maxsize others
            (snd (ttl_lru_cache ttl maxsize now2 k2 st))).
    replace (S n + S (List.length others))%nat
      with (S (S n) + List.length others)%nat by lia.
    apply IH; [intros c Hc; apply Hother; now right | lia |].
    unfold Cache.ttl_lru_cache.
    destruct (Z.eqb_spec ttl 0) as [|_]; [contradiction|].
    apply inner_pushes_back_by_one; [|lia|exact Hfind].
    intros Heq. apply (Hother (now2, k2)); [now left | now symmetry].
Qed.

(** X2.  A value that a call returned is still served, in its window and
    without a call of the function, after any sequence of fewer than
    [maxsize] calls for other keys or other windows. *)
Theorem cached_value_survives_other_calls
        (ttl : Z) (maxsize : nat) (now : Q) (k : K) (v : V) (st st1 : state)
        (others : list (Q * K)) :
  ttl <> 0%Z ->
  ttl_lru_cache ttl maxsize now k st = (Ok v, st1) ->
  (forall c, In c others ->
             (Cache.window ttl (fst c), snd c) <> (Cache.window ttl now, k)) ->
  (List.length others < maxsize)%nat ->
  forall now',
    Cache.window ttl now' = Cache.window ttl now ->
    exists st3,
      ttl_lru_cache ttl maxsize now' k (call_all ttl maxsize others st1)
      = (Ok v, st3)
      /\ Cache.calls st3 = Cache.calls (call_all ttl maxsize others st1).
Proof.
  intros Hnz Hcall Hother Hroom now' Hsame.
  assert (Hfront : lru_find wkey_eqb (Cache.window ttl now, k)
                            (firstn 1 (Cache.cache st1)) = Some v).
  { unfold Cache.ttl_lru_cache in Hcall.
    destruct (Z.eqb_spec ttl 0) as [|_]; [contradiction|].
    unfold Cache.inner in Hcall.
    assert (Hrefl : wkey_eqb (Cache.window ttl now, k) (Cache.window ttl now, k) = true)
      by now apply wkey_eqb_eq.
    destruct (lru_find wkey_eqb (Cache.window ttl now, k) (Cache.cache st)) as [v0|].
    - pose proof (f_equal snd Hcall) as Hst. pose proof (f_equal fst Hcall) as Hv.
      cbn [fst snd] in Hst, Hv. injection Hv as ->. subst st1.
      cbn [Cache.cache]. unfold lru_touch. cbn [firstn lru_find].
      now rewrite Hrefl.
    - destruct (func (Cache.calls st) k) as [v0|]; [|discriminate].
      pose proof (f_equal snd Hcall) as Hst. pose proof (f_equal fst Hcall) as Hv.
      cbn [fst snd] in Hst, Hv. injection Hv as ->. subst st1.
      cbn [Cache.cache]. unfold lru_insert.
      destruct maxsize as [|m]; [lia|]. cbn [firstn lru_find].
      now rewrite Hrefl. }
  pose proof (@call_all_pushes_back ttl maxsize _ k v others Hnz Hother 0%nat st1
                ltac:(lia) Hfront) as Hheld.
  apply lru_find_firstn_all in Hheld.
  unfold Cache.ttl_lru_cache.
  destruct (Z.eqb_spec ttl 0) as [|_]; [contradiction|].
  rewrite Hsame. unfold Cache.inner. rewrite Hheld.
  eexists. split; reflexivity.
Qed.

End CacheSizeFacts.

(** ** The state-listing pass *)

Section XmlExtraFacts.
Import Py Prom XmlApi Spec.
Local Open Scope string_scope.

Lemma the_one_permutation {E : Type} (l l' : list E) :
  Permutation l l' -> the_one l = the_one l'.
Proof.
  intros Hperm. destruct l as [|a [|b l]].
  - apply Permutation_nil in Hperm. now subst.
  - apply Permutation_length_1_inv in Hperm. now subst.
  - pose proof (Permutation_length Hperm) as Hlen.
    destruct l' as [|a' [|b' l']]; simpl in Hlen; try discriminate.
    reflexivity.
Qed.

(** X3.  The lookups do not depend on the order in which the controller
    lists the entries of a directory. *)
Theorem lookups_ignore_directory_order
        (id : Z) (rooms rooms' : list Room) (functions functions' : list Function)
        (devices devices' : list Device) :
  (Permutation rooms rooms' ->
   get_room_of_device rooms id = get_room_of_device rooms' id)
  /\ (Permutation functions functions' ->
      get_function_of_device functions id = get_function_of_device functions' id)
  /\ (Permutation devices devices' ->
      get_device_address_of_device devices id
      = get_device_address_of_device devices' id).
Proof.
  assert (H : forall (E : Type) (ch : E -> list Z) (dir dir' : list E),
             Permutation dir dir' ->
             the_one (found ch dir id) = the_one (found ch dir' id)).
  { intros E ch dir dir' Hperm. apply the_one_permutation.
    unfold found. now apply Permutation_flat_map. }
  unfold get_room_of_device, get_function_of_device,
    get_device_address_of_device.
  split; [|split]; intros Hperm; now rewrite (H _ _ _ _ Hperm).
Qed.

(** *** Labels *)

Lemma shape_labelnames (k : string) (m m0 : dict MetricFamily) :
  shape m = shape m0 ->
  option_map labelnames (dict_get k m) = option_map labelnames (dict_get k m0).
Proof.
  revert m0. induction m as [|[k1 f1] m IH]; intros [|[k2 f2] m0] Hshape;
    try discriminate; [reflexivity|].
  unfold shape in Hshape. simpl in Hshape.
  injection Hshape as Hk Hnames Hrest. subst k2. simpl.
  destruct (String.eqb k k1); [simpl; now rewrite Hnames | now apply IH].
Qed.

Lemma well_labelled_empty (host : string) (m : dict MetricFamily) :
  Forall (fun kf => samples (snd kf) = []) m -> Runs.well_labelled host m.
Proof.
  induction 1 as [|[k1 f1] m Hhd Htl IH]; intros key f s Hget Hin;
    [discriminate|].
  simpl in Hget, Hhd. destruct (String.eqb key k1).
  - injection Hget as <-. rewrite Hhd in Hin. contradiction.
  - now apply (IH key f s).
Qed.

(** Adding a sample that has a value for every label name of its family,
    the host first, keeps a batch well labelled. *)
Lemma well_labelled_add_to (host key : string) (values : list string) (v : Q)
      (names : list string) (m : dict MetricFamily) :
  Runs.well_labelled host m ->
  option_map labelnames (dict_get key m) = Some names ->
  map fst (combine names values) = names ->
  hd_error (map snd (combine names values)) = Some host ->
  Runs.well_labelled host (add_to key values v m).
Proof.
  intros Hm Hnames Hfst Hhd k f s Hget Hin.
  unfold add_to in Hget. rewrite dict_get_alter in Hget.
  destruct (String.eqb k key) eqn:E; [|now apply (Hm k f s)].
  apply String.eqb_eq in E. subst k.
  destruct (dict_get key m) as [f0|] eqn:G; [|discriminate].
  simpl in Hget, Hnames. injection Hget as <-. injection Hnames as <-.
  simpl in Hin. apply in_app_or in Hin. destruct Hin as [Hold|[<-|[]]].
  - now apply (Hm key f0 s).
  - simpl. split; assumption.
Qed.

Lemma well_labelled_datapoint (self : HomeMaticCollector) (dirs : Directories)
      (device : StateDevice) (ch : Channel) (dp : Datapoint)
      (m : dict MetricFamily) :
  shape m = shape new_metrics ->
  Runs.well_labelled (host self) m ->
  Runs.well_labelled (host self)
                     (process_datapoint (base_labels_of self dirs device ch) dp m).
Proof.
  intros Hshape Hm. unfold process_datapoint, base_labels_of.
  destruct (dp_type dp), (valueunit dp); try exact Hm;
    (eapply well_labelled_add_to;
     [ exact Hm
     | rewrite (@shape_labelnames _ _ _ Hshape); reflexivity
     | reflexivity
     | reflexivity ]).
Qed.

(** X4.  Every observation of a pass has a value for each label name of
    its family (the seven base labels, and the direction for rssi), and
    the first of them, ccu, is the collector's host. *)
Theorem run_pass_well_labelled
        (self : HomeMaticCollector) (dirs : Directories)
        (states : list StateDevice) :
  Runs.well_labelled (host self) (run_pass self dirs states).
Proof.
  assert (Hfold : forall (A : Type)
                         (step : dict MetricFamily -> A -> dict MetricFamily),
             (forall m a, shape m = shape new_metrics ->
                          Runs.well_labelled (host self) m ->
                          shape (step m a) = shape new_metrics
                          /\ Runs.well_labelled (host self) (step m a)) ->
             forall l m, shape m = shape new_metrics ->
                         Runs.well_labelled (host self) m ->
                         shape (fold_left step l m) = shape new_metrics
                         /\ Runs.well_labelled (host self) (fold_left step l m)).
  { intros A step Hstep l. induction l as [|a l IH]; intros m Hs Hm; simpl.
    - now split.
    - destruct (Hstep m a Hs Hm) as [Hs' Hm']. now apply IH. }
  unfold run_pass.
  apply (Hfold _ (fun m d => process_device self dirs d m)); [|reflexivity|].
  - intros m d Hs Hm. unfold process_device.
    apply (Hfold _ (fun m ch => process_channel self dirs d ch m));
      [|exact Hs|exact Hm].
    intros m1 ch Hs1 Hm1. rewrite process_channel_fold.
    apply (Hfold _ (fun m dp => process_datapoint
                                  (base_labels_of self dirs d ch) dp m));
      [|exact Hs1|exact Hm1].
    intros m2 dp Hs2 Hm2. split.
    + now rewrite process_datapoint_shape.
    + now apply well_labelled_datapoint.
  - apply well_labelled_empty, new_metrics_empty.
Qed.

(** *** The size of a batch *)

Lemma observations_add_to (key : string) (values : list string) (v : Q)
      (m : dict MetricFamily) :
  (List.length (observations (add_to key values v m))
   <= S (List.length (observations m)))%nat.
Proof.
  unfold add_to, observations.
  induction m as [|[k f] m IH]; simpl; [lia|].
  destruct (String.eqb key k); simpl; rewrite !length_app, !length_map.
  - simpl. rewrite length_app. simpl. lia.
  - lia.
Qed.

Lemma observations_datapoint (base : list string) (dp : Datapoint)
      (m : dict MetricFamily) :
  (List.length (observations (process_datapoint base dp m))
   <= S (List.length (observations m)))%nat.
Proof.
  unfold process_datapoint.
  destruct (dp_type dp), (valueunit dp);
    first [apply observations_add_to | lia].
Qed.

Lemma fold_grows_by {A} (step : dict MetricFamily -> A -> dict MetricFamily)
      (weight : A -> nat) :
  (forall m a, (List.length (observations (step m a))
                <= List.length (observations m) + weight a)%nat) ->
  forall l m,
    (List.length (observations (fold_left step l m))
     <= List.length (observations m) + list_sum (map weight l))%nat.
Proof.
  intros Hstep l. induction l as [|a l IH]; intros m; simpl; [lia|].
  specialize (IH (step m a)). specialize (Hstep m a). lia.
Qed.

Lemma length_flat_map_sum {A B} (f : A -> list B) (l : list A) :
  List.length (flat_map f l) = list_sum (map (fun a => List.length (f a)) l).
Proof.
  induction l as [|a l IH]; simpl; [reflexivity|].
  now rewrite length_app, IH.
Qed.

(** X5.  A pass leaves at most one observation per reading: the batch
    never holds more observations than the state list has datapoints,
    and a state list without datapoints leaves an empty batch. *)
Theorem run_pass_at_most_one_observation_per_reading
        (self : HomeMaticCollector) (dirs : Directories)
        (states : list StateDevice) :
  (List.length (observations (run_pass self dirs states))
   <= List.length (readings self dirs states))%nat.
Proof.
  unfold run_pass, readings.
  rewrite length_flat_map_sum.
  pose proof (fold_grows_by
                (fun m d => process_device self dirs d m)
                (fun device =>
                   List.length
                     (flat_map
                        (fun channel =>
                           map (pair (base_labels_of self dirs device channel))
                               (datapoint channel))
                        (state_channel device)))) as H.
  refine (H _ states new_metrics). clear H.
  intros m d. unfold process_device. rewrite length_flat_map_sum.
  apply (fold_grows_by
           (fun m ch => process_channel self dirs d ch m)
           (fun ch => List.length
                        (map (pair (base_labels_of self dirs d ch))
                             (datapoint ch)))).
  intros m1 ch. rewrite process_channel_fold, length_map.
  pose proof (fold_grows_by
                (fun m dp => process_datapoint (base_labels_of self dirs d ch) dp m)
                (fun _ => 1%nat)) as H.
  assert (Hone : forall l : list Datapoint,
             list_sum (map (fun _ => 1%nat) l) = List.length l).
  { induction l as [|a l IH]; simpl; [reflexivity | now rewrite IH]. }
  rewrite <- Hone. apply H.
  intros m2 dp. pose proof (observations_datapoint
                              (base_labels_of self dirs d ch) dp m2). lia.
Qed.

(** *** Passes over parts of a state list *)



End XmlExtraFacts.

(** ** Names, faults and stale samples in the legacy collector *)

Section LegacyExtraFacts.
Import Py Prom Legacy Spec.
Local Open Scope string_scope.

Local Abbreviation name_of := (fun m => get_or (mapping_name m) "unknown").
Local Abbreviation names_dict :=
  (fold_left (fun d m => dict_set (mapping_address m) (name_of m) d)).






(** *** Faults and devices that are passed over *)

Lemma for_each_ok_same {A S} (body : A -> S -> result S) (l : list A) (s : S) :
  (forall a, In a l -> body a s = Ok s) -> for_each body l s = Ok s.
Proof.
  induction l as [|a l IH]; intros H; simpl; [reflexivity|].
  rewrite (H a) by now left. simpl. apply IH. intros a' Ha'. apply H. now right.
Qed.

(** Without values, nothing of a description is observed. *)
Lemma process_params_without_values
      (self : HomeMaticLegacyCollector) (device : HomeMaticRPCDevice)
      (description : dict ParamDesc) (m : dict MetricFamily) :
  for_each (process_param self device []) description m = Ok m.
Proof.
  apply for_each_ok_same. intros [key desc] _.
  now apply process_param_blank.
Qed.

(** X8.  When reading the values of a channel of a supported device ends
    in an XML-RPC fault: on a channel whose failures are allowed, the
    description of the values is read next, outside of the guard; if that
    read returns, the device is passed over, the batch is left as it was
    and the pass goes on, and if it raises, its exception ends the pass;
    on any other channel the fault of the first read ends the pass. *)
Theorem fault_passes_only_on_allowed_channels
        (self : HomeMaticLegacyCollector) (device : HomeMaticRPCDevice)
        (m : dict MetricFamily) :
  str_in (parent_type device) (supported_device_types self) = true ->
  str_in "VALUES" (paramsets device) = true ->
  paramset (client self) (address device) = Raise Fault ->
  (allow_failed_channel self device = Ok true ->
   forall description,
     paramset_description (client self) (address device) = Ok description ->
     process_device self device m = Ok m)
  /\ (allow_failed_channel self device = Ok true ->
      forall e,
        paramset_description (client self) (address device) = Raise e ->
        process_device self device m = Raise e)
  /\ (allow_failed_channel self device = Ok false ->
      process_device self device m = Raise Fault).
Proof.
  intros Hsup Hvalues Hfault. unfold process_device, read_paramset.
  rewrite Hsup, Hvalues, Hfault. split; [|split].
  - intros Hallow description Hdesc. rewrite Hallow, Hdesc. cbn [bind].
    apply process_params_without_values.
  - intros Hallow e Hdesc. rewrite Hallow, Hdesc. reflexivity.
  - intros Hallow. rewrite Hallow. reflexivity.
Qed.

(** X9.  Devices whose parent type is not supported are counted and not
    read: when no device of the snapshot has a supported parent type the
    pass changes nothing but the device count. *)
Theorem unsupported_devices_are_only_counted
        (self : HomeMaticLegacyCollector) (m : dict MetricFamily) :
  (forall d, In d (client_devices (client self)) ->
             str_in (parent_type d) (supported_device_types self) = false) ->
  generate_metrics self m
  = Ok (add_to "devicecount" [host self]
          (inject_Z (Z.of_nat (List.length (client_devices (client self)))))
          (dict_set "devicecount"
             (GaugeMetricFamily (namespace ++ "_devicecount")
                "Number of processed/supported devices" ["ccu"] EmptyString)
             m))
  /\ forall key, key <> "devicecount" ->
                 forall m', generate_metrics self m = Ok m' ->
                            dict_get key m' = dict_get key m.
Proof.
  intros Hnone.
  assert (Hgen : generate_metrics self m
                 = Ok (add_to "devicecount" [host self]
                         (inject_Z (Z.of_nat (List.length (client_devices (client self)))))
                         (dict_set "devicecount"
                            (GaugeMetricFamily (namespace ++ "_devicecount")
                               "Number of processed/supported devices" ["ccu"]
                               EmptyString)
                            m))).
  { unfold generate_metrics. apply for_each_ok_same.
    intros d Hd. unfold process_device. now rewrite (Hnone d Hd). }
  split; [exact Hgen|].
  intros key Hkey m' Hm'. rewrite Hgen in Hm'. injection Hm' as <-.
  unfold add_to. rewrite dict_get_alter, dict_get_set.
  destruct (String.eqb_spec key "devicecount"); [contradiction | reflexivity].
Qed.

(** *** What a pass keeps of the dictionary it starts on *)

Lemma kept_add_to (base : list Sample) (key g : string) (values : list string)
      (v : Q) (m : dict MetricFamily) :
  (exists rest, samples_of key m = (base ++ rest)%list) ->
  exists rest, samples_of key (add_to g values v m) = (base ++ rest)%list.
Proof.
  intros [rest Hrest]. rewrite samples_of_add_to_held.
  destruct (String.eqb key g); [|now exists rest].
  unfold samples_of in Hrest. destruct (dict_get key m) as [f|].
  - rewrite Hrest, <- app_assoc. now eexists.
  - now exists rest.
Qed.

Lemma kept_ensure_family (base : list Sample) (key g param : string)
      (names : list string) (m : dict MetricFamily) :
  (exists rest, samples_of key m = (base ++ rest)%list) ->
  exists rest,
    samples_of key (ensure_family g param names m) = (base ++ rest)%list.
Proof.
  intros [rest Hrest]. unfold ensure_family, dict_mem.
  destruct (dict_get g m) eqn:G; [now exists rest|].
  unfold samples_of in *. rewrite dict_get_set.
  destruct (String.eqb_spec key g) as [->|_]; [|now exists rest].
  rewrite G in Hrest. now exists rest.
Qed.

Lemma kept_add_run {A} (base : list Sample) (key g : string)
      (values : A -> list string) (v : A -> Q) (l : list A)
      (m : dict MetricFamily) :
  (exists rest, samples_of key m = (base ++ rest)%list) ->
  exists rest,
    samples_of key (fold_left (fun m a => add_to g (values a) (v a) m) l m)
    = (base ++ rest)%list.
Proof.
  revert m. induction l as [|a l IH]; intros m Hm; simpl; [exact Hm|].
  apply IH. now apply kept_add_to.
Qed.

Lemma kept_process_param (base : list Sample) (key : string)
      (self : HomeMaticLegacyCollector) (device : HomeMaticRPCDevice)
      (paramset : dict pyval) (entry : string * ParamDesc)
      (m m' : dict MetricFamily) :
  (exists rest, samples_of key m = (base ++ rest)%list) ->
  process_param self device paramset entry m = Ok m' ->
  exists rest, samples_of key m' = (base ++ rest)%list.
Proof.
  intros Hm. destruct entry as [param desc]. unfold process_param.
  destruct (TYPE desc) as [paramType|];
    [|intros H; injection H as <-; exact Hm].
  destruct (str_in paramType ["FLOAT"; "INTEGER"; "BOOL"]).
  - unfold process_single_value.
    destruct (is_blank (param_value paramset param));
      [intros H; injection H as <-; exact Hm|].
    destruct (resolve_mapped_name self device); cbn [bind]; [|discriminate].
    destruct (float (param_value paramset param)); cbn [bind]; [|discriminate].
    intros H. injection H as <-.
    now apply kept_add_to, kept_ensure_family.
  - destruct (String.eqb paramType "ENUM");
      [|intros H; injection H as <-; exact Hm].
    unfold process_enum.
    destruct (is_blank (param_value paramset param));
      [intros H; injection H as <-; exact Hm|].
    destruct (resolve_mapped_name self device) as [mapped|]; cbn [bind];
      [|discriminate].
    destruct (current_state (VALUE_LIST desc) (param_value paramset param))
      as [state|]; cbn [bind]; [|discriminate].
    intros H. injection H as <-.
    apply kept_add_run
      with (values := fun istate => [host self; address device; type device;
                                     parent_type device; mapped; istate])
           (v := fun istate =>
                   inject_Z (if String.eqb state istate then 1 else 0)).
    now apply kept_ensure_family.
Qed.

(** X10.  A pass that completes has only added to the families other
    than the device count: whatever the dictionary holds under a key when
    the pass starts, be it empty or not, is still there when the pass
    completes, ahead of what the pass added. *)
Theorem generate_metrics_keeps_earlier_samples
        (self : HomeMaticLegacyCollector) (key : string)
        (m m' : dict MetricFamily) :
  key <> "devicecount" ->
  generate_metrics self m = Ok m' ->
  exists added, samples_of key m' = (samples_of key m ++ added)%list.
Proof.
  intros Hkey. unfold generate_metrics.
  apply (for_each_invariant
           (fun m1 => exists rest,
                        samples_of key m1 = (samples_of key m ++ rest)%list)).
  - intros device s s' Hs. unfold process_device.
    destruct (str_in (parent_type device) (supported_device_types self));
      [|intros H; injection H as <-; exact Hs].
    destruct (allow_failed_channel self device) as [allow|]; cbn [bind];
      [|discriminate].
    destruct (str_in "VALUES" (paramsets device));
      [|intros H; injection H as <-; exact Hs].
    destruct (read_paramset self device allow) as [values|]; cbn [bind];
      [|discriminate].
    destruct (paramset_description (client self) (address device)) as [desc|];
      cbn [bind]; [|discriminate].
    apply (for_each_invariant
             (fun m1 => exists rest,
                          samples_of key m1 = (samples_of key m ++ rest)%list));
      [|exact Hs].
    intros entry s1 s1' Hs1. now apply kept_process_param.
  - exists []. rewrite app_nil_r. unfold samples_of, add_to.
    rewrite dict_get_alter, dict_get_set.
    destruct (String.eqb_spec key "devicecount"); [contradiction | reflexivity].
Qed.

(** *** One state is hot *)

Lemma filter_eqb_once (x : string) (l : list string) :
  NoDup l -> In x l -> List.length (filter (String.eqb x) l) = 1%nat.
Proof.
  induction 1 as [|y l Hnotin Hnodup IH]; simpl; [contradiction|].
  intros [->|Hin].
  - rewrite String.eqb_refl. simpl. f_equal.
    clear IH Hnodup. induction l as [|z l IHl]; [reflexivity|].
    simpl. destruct (String.eqb_spec x z) as [->|_].
    + exfalso. apply Hnotin. now left.
    + apply IHl. intros H. apply Hnotin. now right.
  - destruct (String.eqb_spec x y) as [->|_]; [contradiction | now apply IH].
Qed.

Lemma index_In {A} (l : list A) (i : Z) (a : A) : index l i = Ok a -> In a l.
Proof.
  unfold index.
  destruct ((0 <=? (if (i <? 0)%Z then (Z.of_nat (List.length l) + i)%Z else i))%Z
            && ((if (i <? 0)%Z then (Z.of_nat (List.length l) + i)%Z else i)
                <? Z.of_nat (List.length l))%Z); [|discriminate].
  destruct (nth_error l _) as [b|] eqn:E; [|discriminate].
  intros H. injection H as <-. eapply nth_error_In; eauto.
Qed.

(** X11.  When the declared states are distinct, the first enumerated
    reading of a key in a pass leaves as many observations as there are
    states and exactly one of them has the value 1. *)
Theorem process_enum_exactly_one_hot
        (self : HomeMaticLegacyCollector) (device : HomeMaticRPCDevice)
        (key : string) (value : pyval) (states : list string)
        (m : dict MetricFamily) (i : Z) (state mapped : string) :
  is_blank value = false ->
  resolve_mapped_name self device = Ok mapped ->
  int value = Ok i ->
  index states i = Ok state ->
  NoDup states ->
  dict_get (lower key ++ "_set") m = None ->
  exists m',
    process_enum self device key value (Some states) m = Ok m'
    /\ List.length (samples_of (lower key ++ "_set") m') = List.length states
    /\ List.length
         (filter (fun s => Qeq_bool (sample_value s) 1)
                 (samples_of (lower key ++ "_set") m'))
       = 1%nat.
Proof.
  intros Hblank Hname Hint Hidx Hnodup Hfresh.
  unfold process_enum, current_state. rewrite Hblank, Hname, Hint. cbn [bind].
  rewrite Hidx. cbn [bind get_or]. eexists. split; [reflexivity|].
  unfold ensure_family, dict_mem. rewrite Hfresh.
  erewrite samples_of_add_run
    by (rewrite dict_get_set, String.eqb_refl; reflexivity).
  cbn [samples GaugeMetricFamily app]. rewrite length_map.
  split; [reflexivity|].
  rewrite <- (@filter_eqb_once state states Hnodup (@index_In _ _ _ _ Hidx)).
  clear. induction states as [|istate states IH]; [reflexivity|].
  cbn [map filter sample_value].
  destruct (String.eqb state istate).
  - change (Qeq_bool (inject_Z 1) 1) with true. cbn [List.length].
    f_equal. exact IH.
  - change (Qeq_bool (inject_Z 0) 1) with false. exact IH.
Qed.

End LegacyExtraFacts.

(** ** exporter.py *)

Section MainFacts.
Import Exporter.
Local Open Scope string_scope.

(** X12.  [main] never gets to serve the state-listing collector: given
    a session id, and neither [--dump_devices] nor [--dump_parameters],
    it ends in the AssertionError of the collector's constructor, also
    when [--dump_device_names] is given, which a session id overrides;
    without a session id it dumps or serves the legacy collector. *)
Theorem main_never_serves_state_listing (args : Args) :
  (forall collector p, main args <> Ok (ServeXml collector p))
  /\ (truthy (ccu_session_id args) = true ->
      dump_devices args = false ->
      truthy (dump_parameters args) = false ->
      main args = Raise (AssertionError "Please provide a valid session_id"))
  /\ (truthy (ccu_session_id args) = false ->
      dump_devices args = false ->
      truthy (dump_parameters args) = false ->
      dump_device_names args = true ->
      main args = Ok PrintDeviceNames).
Proof.
  assert (Hinit : XmlApi.init (ccu_host args)
                    (auth (ccu_user args) (ccu_pass args) (ccu_session_id args))
                    false
                  = Raise (AssertionError "Please provide a valid session_id")).
  { unfold auth.
    destruct (truthy (ccu_user args) && truthy (ccu_pass args));
      [reflexivity|].
    destruct (truthy (ccu_session_id args)); reflexivity. }
  split; [|split].
  - intros collector p. unfold main. rewrite Hinit.
    destruct (dump_devices args
              || truthy (dump_parameters args)
              || dump_device_names args && negb (truthy (ccu_session_id args))).
    + destruct (dump_devices args); [discriminate|].
      destruct (dump_device_names args); [discriminate|].
      destruct (dump_parameters args) as [[|c a]|]; discriminate.
    + destruct (negb (truthy (ccu_session_id args))); [|discriminate].
      destruct (Py.int (port args)); discriminate.
  - intros Hsid Hdd Hdp. unfold main. rewrite Hinit, Hsid, Hdd, Hdp.
    cbn [negb orb]. rewrite andb_false_r. reflexivity.
  - intros Hsid Hdd Hdp Hnames. unfold main. rewrite Hsid, Hdd, Hdp, Hnames.
    reflexivity.
Qed.
End MainFacts.

(** ** The further properties on concrete inputs *)

Section ExtraChecks.
Import Py Prom Spec Scenario.
Local Open Scope string_scope.

Lemma caches_stay_within_maxsize_witness :
  (List.length (Cache.cache after_first_call) <= 128)%nat
  /\ (List.length (Cache.cache' after_first_call') <= 128)%nat
  /\ fst (Cache.ttl_lru_cache Z.eqb counting 60 0 59 7%Z (Cache.empty Z nat))
     = counting 0 7%Z.
Proof.
  destruct (@caches_stay_within_maxsize Z nat Z.eqb counting 128 59 7%Z)
    as (Hwin & Hdeath & _).
  destruct (@caches_stay_within_maxsize Z nat Z.eqb counting 0 59 7%Z)
    as (_ & _ & Hzero).
  assert (Hnz : 60%Z <> 0%Z) by discriminate.
  split; [|split].
  - exact (Hwin 60%Z (Cache.empty Z nat) (Nat.le_0_l 128)).
  - exact (Hdeath 60 (Cache.empty' Z nat) (Nat.le_0_l 128)).
  - exact (proj1 (Hzero 60%Z (Cache.empty Z nat) eq_refl Hnz (Nat.le_0_l 0))).
Defined.

Lemma cached_value_survives_other_calls_witness :
  exists st3,
    Cache.ttl_lru_cache Z.eqb counting 60 2 30 7%Z
      (Runs.call_all Z.eqb counting 60 2 [(1, 8%Z)]
         (snd (Cache.ttl_lru_cache Z.eqb counting 60 2 0 7%Z (Cache.empty Z nat))))
    = (Ok 0%nat, st3)
    /\ Cache.calls st3
       = Cache.calls
           (Runs.call_all Z.eqb counting 60 2 [(1, 8%Z)]
              (snd (Cache.ttl_lru_cache Z.eqb counting 60 2 0 7%Z
                                        (Cache.empty Z nat)))).
Proof.
  assert (Hnz : 60%Z <> 0%Z) by discriminate.
  assert (Hother : forall c : Q * Z,
             In c [(1, 8%Z)] ->
             (Cache.window 60 (fst c), snd c) <> (Cache.window 60 0, 7%Z)).
  { intros c [<-|[]]. discriminate. }
  assert (Hroom : (List.length [(1, 8%Z)] < 2)%nat) by (apply Nat.ltb_lt; reflexivity).
  exact (@cached_value_survives_other_calls
           Z nat Z.eqb Z.eqb_eq counting 60 2 0 7%Z 0%nat (Cache.empty Z nat)
           (snd (Cache.ttl_lru_cache Z.eqb counting 60 2 0 7%Z (Cache.empty Z nat)))
           [(1, 8%Z)] Hnz eq_refl Hother Hroom 30 eq_refl).
Defined.

Lemma lookups_ignore_directory_order_witness :
  XmlApi.get_room_of_device [kitchen; hall] 7
  = XmlApi.get_room_of_device [hall; kitchen] 7.
Proof.
  destruct (lookups_ignore_directory_order
              7 [kitchen; hall] [hall; kitchen] [] [] [] []) as [Hrooms _].
  exact (Hrooms (perm_swap hall kitchen [])).
Defined.



Lemma fault_passes_only_on_allowed_channels_witness :
  Legacy.process_device (faulty_collector [1%Z]) window_contact [] = Ok []
  /\ Legacy.process_device (faultier_collector [1%Z]) window_contact []
     = Raise Fault
  /\ Legacy.process_device (faulty_collector [2%Z]) window_contact []
     = Raise Fault.
Proof.
  destruct (@fault_passes_only_on_allowed_channels
              (faulty_collector [1%Z]) window_contact [] eq_refl eq_refl eq_refl)
    as (Hallowed & _ & _).
  destruct (@fault_passes_only_on_allowed_channels
              (faultier_collector [1%Z]) window_contact [] eq_refl eq_refl eq_refl)
    as (_ & Hboth & _).
  destruct (@fault_passes_only_on_allowed_channels
              (faulty_collector [2%Z]) window_contact [] eq_refl eq_refl eq_refl)
    as (_ & _ & Hother).
  split; [|split].
  - exact (Hallowed eq_refl state_desc eq_refl).
  - exact (Hboth eq_refl Fault eq_refl).
  - exact (Hother eq_refl).
Defined.

Lemma unsupported_devices_are_only_counted_witness :
  Legacy.generate_metrics blind_collector []
  = Ok [("devicecount",
         add_metric ["ccu.local"] 1
           (GaugeMetricFamily "homematic_devicecount"
              "Number of processed/supported devices" ["ccu"] EmptyString))].
Proof.
  assert (Hnone : forall d,
             In d (Legacy.client_devices (Legacy.client blind_collector)) ->
             str_in (Legacy.parent_type d)
                    (Legacy.supported_device_types blind_collector) = false)
    by (intros d [<-|[]]; reflexivity).
  exact (proj1 (@unsupported_devices_are_only_counted blind_collector [] Hnone)).
Defined.

Lemma generate_metrics_keeps_earlier_samples_witness :
  exists m',
    Legacy.generate_metrics (legacy_collector [("STATE", PInt 1)] state_desc)
                            left_behind = Ok m'
    /\ exists added,
        samples_of "state_set" m'
        = (samples_of "state_set" left_behind ++ added)%list.
Proof.
  assert (Hkey : "state_set" <> "devicecount") by discriminate.
  eexists. split; [reflexivity|].
  exact (@generate_metrics_keeps_earlier_samples
           (legacy_collector [("STATE", PInt 1)] state_desc) "state_set"
           left_behind _ Hkey eq_refl).
Defined.

Lemma process_enum_exactly_one_hot_witness :
  exists m',
    Legacy.process_enum (legacy_collector [] state_desc) window_contact
                        "STATE" (PInt 1) (Some ["OPEN"; "CLOSED"]) []
    = Ok m'
    /\ List.length (samples_of "state_set" m') = 2%nat
    /\ List.length
         (filter (fun s => Qeq_bool (sample_value s) 1)
                 (samples_of "state_set" m'))
       = 1%nat.
Proof.
  assert (Hnodup : NoDup ["OPEN"; "CLOSED"]).
  { constructor; [intros [H|[]]; discriminate|].
    constructor; [intros []|constructor]. }
  exact (@process_enum_exactly_one_hot
           (legacy_collector [] state_desc) window_contact "STATE" (PInt 1)
           ["OPEN"; "CLOSED"] [] 1%Z "CLOSED" "Window"
           eq_refl eq_refl eq_refl eq_refl Hnodup eq_refl).
Defined.

Lemma main_never_serves_state_listing_witness :
  Exporter.main session_args
  = Raise (AssertionError "Please provide a valid session_id").
Proof.
  destruct (main_never_serves_state_listing session_args) as (_ & Hsid & _).
  exact (Hsid eq_refl eq_refl eq_refl).
Defined.

End ExtraChecks.

(** ** The cached lookups of xml_api.py *)

Section DecoratorFacts.
Variables S K V : Type.
Variable K_eqb : K -> K -> bool.
Hypothesis K_eqb_refl : forall a, K_eqb a a = true.
Variable get : S -> list ((Z * K) * V).
Variable set : list ((Z * K) * V) -> S -> S.
Hypothesis get_set : forall c s, get (set c s) = c.

Local Abbreviation call := (Decorated.ttl_lru_cache K_eqb get set).
Local Abbreviation wkey_eqb := (Cache.wkey_eqb K_eqb).



End DecoratorFacts.

(** The decorator around a function of a state is the decorator of
    cache.py when the state is the cache and the count of the calls. *)
Lemma decorated_agrees_with_cache {K V : Type} (K_eqb : K -> K -> bool)
      (func : nat -> K -> result V) (ttl : Z) (maxsize : nat) (now : Q)
      (k : K) (st : Cache.state K V) :
  Decorated.ttl_lru_cache
    K_eqb (@Cache.cache K V) (fun c s => Cache.mkState c (Cache.calls s))
    ttl maxsize
    (fun k s => (func (Cache.calls s) k,
                 Cache.mkState (Cache.cache s) (S (Cache.calls s))))
    now k st
  = Cache.ttl_lru_cache K_eqb func ttl maxsize now k st.
Proof.
  unfold Decorated.ttl_lru_cache, Cache.ttl_lru_cache, Cache.inner.
  destruct (Z.eqb ttl 0); [reflexivity|].
  destruct (lru_find (Cache.wkey_eqb K_eqb) (Cache.window ttl now, k)
                     (Cache.cache st)); [reflexivity|].
  destruct (func (Cache.calls st) k); reflexivity.
Qed.

Section DecoratedLookupFacts.
Import XmlApi Spec.
Local Open Scope string_scope.




End DecoratedLookupFacts.
